(** * WebMail: the IMAP client (modules/imap_client.py)

    A shallow embedding of [IMAPClient]: candidate hosts, connect,
    disconnect, get_messages and the message decoding helpers, with the
    properties of the specification stated over it.

    Python [str] and [bytes] values are Rocq strings.  The IMAP server is a
    state-passing transport over an arbitrary world type; exceptions are an
    explicit result type; the instance attributes are a record threaded
    through a small state-and-exception monad that also logs every
    transport call and every attribute write.  The calls to the logger are
    left out: the client reads nothing back from them.  Each blocking call
    is awaited before the next one starts, so [_to_thread] is the call
    itself. *)

From Stdlib Require Import String Ascii ZArith List Bool Lia.
From stdpp Require Import gmap strings.
Import ListNotations.
Local Open Scope string_scope.
Local Open Scope Z_scope.
Set Warnings "-register-all".

(** ** Exceptions and results *)

(** The exception classes the client meets.  [IMAP4_error] stands for
    imaplib.IMAP4.error and its subclasses (abort, readonly); [OSError] for
    OSError and its subclasses (socket, TLS and timeout errors).  Every
    class here derives from Exception. *)
Inductive exn_class :=
| IMAP4_error
| OSError
| MailAuthError
| UnknownMailDomainError
| IndexError
| AttributeError
| LookupError
| ValueError
| OtherException.

(** An exception value: its class and what [str(e)] gives. *)
Record exn := Exn { exn_cls : exn_class; exn_str : string }.

Inductive result (A : Type) :=
| Ok (a : A)
| Raise (e : exn).
Arguments Ok {A} a.
Arguments Raise {A} e.

(** [except (imaplib.IMAP4.error, OSError)] *)
Definition is_imap_or_os_error (e : exn) : bool :=
  match exn_cls e with
  | IMAP4_error | OSError => true
  | _ => false
  end.

(** ** Python string and list primitives *)

Definition at_sign : ascii := "@"%char.
(** The double quote, character 34. *)
Definition dquote : ascii := Eval cbv in ascii_of_nat 34.
Definition newline : string := String (ascii_of_nat 10) "".

(** Truthiness of a [str]: the empty string is false. *)
Definition str_truthy (s : string) : bool :=
  match s with
  | EmptyString => false
  | String _ _ => true
  end.

(** [s.split(sep)] for a one-character separator: never an empty list. *)
Fixpoint str_split (sep : ascii) (s : string) : list string :=
  match s with
  | EmptyString => [EmptyString]
  | String c rest =>
      if Ascii.eqb c sep then EmptyString :: str_split sep rest
      else match str_split sep rest with
           | hd :: tl => String c hd :: tl
           | [] => [String c EmptyString]
           end
  end.

(** [l[-1]]: IndexError on the empty list. *)
Definition index_last {A : Type} (l : list A) : result A :=
  match rev l with
  | x :: _ => Ok x
  | [] => Raise (Exn IndexError "list index out of range")
  end.

(** [sep.join(parts)] *)
Definition str_join (sep : string) (parts : list string) : string :=
  String.concat sep parts.

(** [c in s] for a character. *)
Fixpoint str_has (c : ascii) (s : string) : bool :=
  match s with
  | EmptyString => false
  | String d rest => Ascii.eqb d c || str_has c rest
  end.

(** [s.startswith(p)] *)
Fixpoint str_starts_with (p s : string) : bool :=
  match p with
  | EmptyString => true
  | String a p' =>
      match s with
      | EmptyString => false
      | String b s' => Ascii.eqb a b && str_starts_with p' s'
      end
  end.

(** [needle in s] for strings. *)
Fixpoint str_contains (needle s : string) : bool :=
  str_starts_with needle s ||
  match s with
  | EmptyString => false
  | String _ rest => str_contains needle rest
  end.

(** Python's [l[start:]] for any integer [start]: a negative start counts
    from the end, and both ends are clamped. *)
Definition slice_from {A : Type} (start : Z) (l : list A) : list A :=
  let n := Z.of_nat (length l) in
  let i := if start <? 0 then Z.max (n + start) 0 else Z.min start n in
  skipn (Z.to_nat i) l.

(** ** Parsed messages *)

(** An [email.message.Message] as the client reads it: the header list,
    what [get_content_type()] and [get_content_charset()] give, and the
    payload, which is either the bytes [get_payload(decode=True)] yields or
    the list of sub-parts ([is_multipart()]). *)
Inductive Message :=
| Single (headers : list (string * string)) (content_type : string)
         (content_charset : option string) (payload : string)
| Multipart (headers : list (string * string)) (content_type : string)
            (content_charset : option string) (parts : list Message).

(** ** External collaborators *)

(** What the standard library does; the client only calls it.
    [str_strip] is [str.strip()], [str_lower] is [str.lower()],
    [decode_header_str v] is [str(make_header(decode_header(v)))],
    [bytes_decode cs b] is [b.decode(cs, errors="replace")] for a charset
    other than utf-8 (it raises LookupError on an unknown charset),
    [utf8_replace b] is [b.decode("utf-8", errors="replace")], which never
    raises, and [message_from_bytes] is [email.message_from_bytes]. *)
Record PyLib := {
  str_strip : string -> string;
  str_lower : string -> string;
  decode_header_str : string -> result string;
  bytes_decode : string -> string -> result string;
  utf8_replace : string -> string;
  message_from_bytes : string -> Message
}.

(** modules/imap_config.py, which is not among the sources at hand: the
    domain table and the port are parameters. *)
Record Config := {
  IMAP_SERVERS : gmap string string;
  DEFAULT_PORT : Z
}.

(** ASCII instances of strip and lower, for running the model. *)
Definition ascii_is_space (c : ascii) : bool :=
  let n := nat_of_ascii c in
  ((9 <=? n)%nat && (n <=? 13)%nat) || (n =? 32)%nat
  || ((28 <=? n)%nat && (n <=? 31)%nat).

Fixpoint lstrip (s : string) : string :=
  match s with
  | String c rest => if ascii_is_space c then lstrip rest else s
  | EmptyString => EmptyString
  end.

Fixpoint rstrip (s : string) : string :=
  match s with
  | EmptyString => EmptyString
  | String c rest =>
      match rstrip rest with
      | EmptyString => if ascii_is_space c then EmptyString else String c EmptyString
      | r => String c r
      end
  end.

Definition ascii_strip (s : string) : string := rstrip (lstrip s).

Definition ascii_lower_char (c : ascii) : ascii :=
  let n := nat_of_ascii c in
  if ((65 <=? n)%nat && (n <=? 90)%nat) then ascii_of_nat (n + 32) else c.

Fixpoint ascii_lower (s : string) : string :=
  match s with
  | EmptyString => EmptyString
  | String c rest => String (ascii_lower_char c) (ascii_lower rest)
  end.

(** ** The client instance *)

Definition handle := nat.

(** The attributes [__init__] sets. *)
Record client := {
  email : string;
  password : string;
  timeout : Z;
  server : option handle;
  _connected_host : option string
}.

Definition __init__ (email_addr password : string) (timeout : Z) : client :=
  {| email := email_addr; password := password; timeout := timeout;
     server := None; _connected_host := None |}.

Definition fallback_hosts : list string :=
  ["imap.firstmail.ltd"; "imap.notletters.com"].

(** The [domain] variable of [_candidate_hosts]:
    [self.email.split("@")[-1].strip().lower()]. *)
Definition lookup_domain (lib : PyLib) (c : client) : result string :=
  match index_last (str_split at_sign (email c)) with
  | Raise e => Raise e
  | Ok seg => Ok (str_lower lib (str_strip lib seg))
  end.

(** [IMAPClient._candidate_hosts] *)
Definition _candidate_hosts (lib : PyLib) (cfg : Config) (c : client)
  : result (list string) :=
  match lookup_domain lib c with
  | Raise e => Raise e
  | Ok domain =>
      match IMAP_SERVERS cfg !! domain with
      | Some host => if str_truthy host then Ok [host] else Ok fallback_hosts
      | None => Ok fallback_hosts
      end
  end.

(** ** The transport and the monad of the client *)

(** What the server can answer to a fetch: [data[0]] is None, a
    (envelope, literal) pair, or a bare bytes item. *)
Inductive fetch_item :=
| ItemNone
| ItemTuple (envelope literal : string)
| ItemBytes (b : string).

(** The capability set of imaplib.IMAP4_SSL over a world [W]: each call
    returns or raises, and moves the world on. *)
Record Transport (W : Type) := {
  IMAP4_SSL : string -> Z -> Z -> W -> result handle * W;
  login : handle -> string -> string -> W -> result string * W;
  logout : handle -> W -> result unit * W;
  select : handle -> string -> bool -> W -> result string * W;
  search : handle -> string -> W -> result (string * list (option string)) * W;
  fetch : handle -> string -> string -> W -> result (string * list fetch_item) * W
}.
Arguments IMAP4_SSL {W}.
Arguments login {W}.
Arguments logout {W}.
Arguments select {W}.
Arguments search {W}.
Arguments fetch {W}.

Inductive call :=
| CallIMAP4_SSL (host : string) (port tmo : Z)
| CallLogin (h : handle) (user pass : string)
| CallLogout (h : handle)
| CallSelect (h : handle) (mailbox : string) (readonly : bool)
| CallSearch (h : handle) (criteria : string)
| CallFetch (h : handle) (msg_id items : string).

(** The log: transport calls, and the instance after each attribute write. *)
Inductive event :=
| EvCall (c : call)
| EvSelf (snapshot : client).

Record state (W : Type) := {
  self : client;
  world : W;
  trace : list event
}.
Arguments self {W}.
Arguments world {W}.
Arguments trace {W}.

Definition M (W A : Type) : Type := state W -> result A * state W.

Definition ret {W A} (a : A) : M W A := fun st => (Ok a, st).

Definition raise {W A} (e : exn) : M W A := fun st => (Raise e, st).

Definition bind {W A B} (m : M W A) (k : A -> M W B) : M W B :=
  fun st =>
    match m st with
    | (Ok a, st') => k a st'
    | (Raise e, st') => (Raise e, st')
    end.

Declare Scope py_scope.
Delimit Scope py_scope with py.
Notation "'let*' x ':=' c 'in' k" := (bind c (fun x => k))
  (at level 10, x pattern, c at level 100, k at level 200) : py_scope.
Notation "c '>>' k" := (bind c (fun _ => k))
  (at level 90, right associativity) : py_scope.
Local Open Scope py_scope.

Definition lift {W A} (r : result A) : M W A := fun st => (r, st).

(** [try: body except <catches> as e: handler e] *)
Definition try_except {W A} (body : M W A) (catches : exn -> bool)
    (handler : exn -> M W A) : M W A :=
  fun st =>
    match body st with
    | (Raise e, st') => if catches e then handler e st' else (Raise e, st')
    | r => r
    end.

(** [try: body finally: fin] *)
Definition try_finally {W A} (body : M W A) (fin : M W unit) : M W A :=
  fun st =>
    match body st with
    | (r, st') =>
        match fin st' with
        | (Ok _, st'') => (r, st'')
        | (Raise e, st'') => (Raise e, st'')
        end
    end.

(** [except Exception]: every class of the model. *)
Definition any_exception (e : exn) : bool := true.

Definition get_self {W} : M W client := fun st => (Ok (self st), st).

Definition write_self {W} (c : client) : M W unit :=
  fun st => (Ok tt, {| self := c; world := world st;
                       trace := trace st ++ [EvSelf c] |}).

(** [self.server = v] *)
Definition set_server {W} (v : option handle) : M W unit :=
  let* c := get_self in
  write_self {| email := email c; password := password c; timeout := timeout c;
                server := v; _connected_host := _connected_host c |}.

(** [self._connected_host = v] *)
Definition set_connected_host {W} (v : option string) : M W unit :=
  let* c := get_self in
  write_self {| email := email c; password := password c; timeout := timeout c;
                server := server c; _connected_host := v |}.

(** A transport call: logged, then run on the world. *)
Definition invoke {W A} (c : call) (f : W -> result A * W) : M W A :=
  fun st =>
    let (r, w') := f (world st) in
    (r, {| self := self st; world := w'; trace := trace st ++ [EvCall c] |}).

(** [self.server.<method>(...)]: an attribute of None raises AttributeError. *)
Definition with_server {W A} (k : handle -> M W A) : M W A :=
  let* c := get_self in
  match server c with
  | Some h => k h
  | None => raise (Exn AttributeError "'NoneType' object has no attribute")
  end.

(** ** Decoding a message *)

(** The dictionary [get_messages] builds for one message. *)
Record MessageRecord := {
  subject : string;
  from_ : string;
  to : string;
  date : string;
  message_id : string;
  body_text : string;
  body_html : string
}.

(** [html.escape(s)] with its default [quote=True]: five replacements in
    this order, the ampersand first. *)
Fixpoint str_replace_char (c : ascii) (by_ : string) (s : string) : string :=
  match s with
  | EmptyString => EmptyString
  | String d rest =>
      if Ascii.eqb d c then by_ ++ str_replace_char c by_ rest
      else String d (str_replace_char c by_ rest)
  end.

Definition html_escape (s : string) : string :=
  let s := str_replace_char "&"%char "&amp;" s in
  let s := str_replace_char "<"%char "&lt;" s in
  let s := str_replace_char ">"%char "&gt;" s in
  let s := str_replace_char dquote "&quot;" s in
  let s := str_replace_char "'"%char "&#x27;" s in
  s.

Definition pre_open : string := "<pre style='white-space:pre-wrap;margin:0'>".
Definition pre_close : string := "</pre>".

(** [IMAPClient._plaintext_to_minimal_html] *)
Definition _plaintext_to_minimal_html (text : string) : string :=
  pre_open ++ html_escape text ++ pre_close.

(** [html.unescape] on the five references [html.escape] writes: one pass
    from the left, each reference replaced by its character, every other
    character kept.  [skip] counts the characters of a reference still to
    pass over. *)
Fixpoint html_unescape_from (skip : nat) (s : string) : string :=
  match s with
  | EmptyString => EmptyString
  | String c rest =>
      match skip with
      | S k => html_unescape_from k rest
      | O =>
          if Ascii.eqb c "&"%char then
            if str_starts_with "amp;" rest then String "&"%char (html_unescape_from 4 rest)
            else if str_starts_with "lt;" rest then String "<"%char (html_unescape_from 3 rest)
            else if str_starts_with "gt;" rest then String ">"%char (html_unescape_from 3 rest)
            else if str_starts_with "quot;" rest then String dquote (html_unescape_from 5 rest)
            else if str_starts_with "#x27;" rest then String "'"%char (html_unescape_from 5 rest)
            else String c (html_unescape_from 0 rest)
          else String c (html_unescape_from 0 rest)
      end
  end.

Definition html_unescape (s : string) : string := html_unescape_from 0 s.

(** What [Message.get] hands out for a header value: the str itself, or,
    when the raw value has bytes outside ASCII, an email.header.Header
    object made of it.  A Header object is true, and has none of the
    methods of str. *)
Inductive header_value :=
| HStr (s : string)
| HHeader (raw : string).

(** A byte outside ASCII, which the parser keeps as a surrogate escape. *)
Fixpoint has_8bit (s : string) : bool :=
  match s with
  | EmptyString => false
  | String c rest => (128 <=? nat_of_ascii c)%nat || has_8bit rest
  end.

(** The header_fetch_parse of the compat32 policy. *)
Definition header_fetch (v : string) : header_value :=
  if has_8bit v then HHeader v else HStr v.

(** The text a header value was made of. *)
Definition header_text (v : header_value) : string :=
  match v with
  | HStr s | HHeader s => s
  end.

Section Decoder.
Context (lib : PyLib).

(** [IMAPClient._decode_maybe_encoded] *)
Definition _decode_maybe_encoded (value : option string) : string :=
  match value with
  | None => ""
  | Some v =>
      match decode_header_str lib v with
      | Ok s => s
      | Raise _ => v
      end
  end.

Definition msg_headers (m : Message) : list (string * string) :=
  match m with
  | Single h _ _ _ | Multipart h _ _ _ => h
  end.

(** [msg.get(name)]: the first header of that name, names compared without
    case; None when there is none.  This is the text of the value: for a
    value with bytes outside ASCII the library hands out a Header object
    of that text, which [decode_header] takes as it takes a str, so that
    [decode_header_str] stands for the decoding of either. *)
Definition msg_get (m : Message) (name : string) : option string :=
  match find (fun kv => String.eqb (str_lower lib (fst kv)) (str_lower lib name))
             (msg_headers m) with
  | Some kv => Some (snd kv)
  | None => None
  end.

(** [msg.get(name, default)], as the code that calls str methods on it
    sees it: a str, or a Header object. *)
Definition msg_get_default (m : Message) (name default : string) : header_value :=
  match msg_get m name with
  | Some v => header_fetch v
  | None => HStr default
  end.

(** [disp and "attachment" in disp.lower()]: a Header object is true and
    has no [lower]. *)
Definition attachment_test (disp : header_value) : result bool :=
  match disp with
  | HStr s => Ok (str_truthy s && str_contains "attachment" (str_lower lib s))
  | HHeader _ => Raise (Exn AttributeError "'Header' object has no attribute 'lower'")
  end.

Definition is_multipart (m : Message) : bool :=
  match m with
  | Single _ _ _ _ => false
  | Multipart _ _ _ _ => true
  end.

Definition get_content_type (m : Message) : string :=
  match m with
  | Single _ t _ _ | Multipart _ t _ _ => t
  end.

(** [get_content_maintype()] is [get_content_type().split("/")[0]]. *)
Definition get_content_maintype (m : Message) : string :=
  match str_split "/"%char (get_content_type m) with
  | x :: _ => x
  | [] => ""
  end.

Definition get_content_charset (m : Message) : option string :=
  match m with
  | Single _ _ cs _ | Multipart _ _ cs _ => cs
  end.

(** [get_payload(decode=True) or b""]: a multipart payload decodes to None. *)
Definition payload_or_empty (m : Message) : string :=
  match m with
  | Single _ _ _ p => p
  | Multipart _ _ _ _ => ""
  end.

(** [get_content_charset() or "utf-8"] *)
Definition charset_or_utf8 (m : Message) : string :=
  match get_content_charset m with
  | Some cs => if str_truthy cs then cs else "utf-8"
  | None => "utf-8"
  end.

(** [b.decode(charset, errors="replace")] *)
Definition decode_replace (charset b : string) : result string :=
  if String.eqb charset "utf-8" then Ok (utf8_replace lib b)
  else bytes_decode lib charset b.

(** [msg.walk()]: the message, then its sub-parts depth first. *)
Fixpoint walk (m : Message) : list Message :=
  m :: match m with
       | Single _ _ _ _ => []
       | Multipart _ _ _ ps =>
           (fix walk_all (l : list Message) : list Message :=
              match l with
              | [] => []
              | p :: l' => (walk p ++ walk_all l')%list
              end) ps
       end.

(** One turn of the loop over [msg.walk()]; the test of the disposition
    is outside the try, so what it raises ends the loop. *)
Definition collect_part (acc : list string * list string) (part : Message)
  : result (list string * list string) :=
  let (plain_parts, html_parts) := acc in
  let ctype := get_content_type part in
  let disp := msg_get_default part "Content-Disposition" "" in
  if String.eqb (get_content_maintype part) "multipart" then Ok acc
  else
    match attachment_test disp with
    | Raise e => Raise e
    | Ok true => Ok acc
    | Ok false =>
        let payload := payload_or_empty part in
        let charset := charset_or_utf8 part in
        let text := match decode_replace charset payload with
                    | Ok t => t
                    | Raise _ => utf8_replace lib payload
                    end in
        if String.eqb ctype "text/plain"
        then Ok ((plain_parts ++ [text])%list, html_parts)
        else if String.eqb ctype "text/html"
        then Ok (plain_parts, (html_parts ++ [text])%list)
        else Ok acc
    end.

(** The loop [for part in msg.walk()]. *)
Fixpoint collect_parts (parts : list Message) (acc : list string * list string)
  : result (list string * list string) :=
  match parts with
  | [] => Ok acc
  | part :: rest =>
      match collect_part acc part with
      | Raise e => Raise e
      | Ok acc' => collect_parts rest acc'
      end
  end.

(** [IMAPClient._extract_bodies] *)
Definition _extract_bodies (msg : Message) : result (string * string) :=
  let finish (acc : list string * list string) :=
    (str_strip lib (str_join newline (fst acc)),
     str_strip lib (str_join newline (snd acc))) in
  if is_multipart msg then
    match collect_parts (walk msg) ([], []) with
    | Raise e => Raise e
    | Ok acc => Ok (finish acc)
    end
  else
    match decode_replace (charset_or_utf8 msg) (payload_or_empty msg) with
    | Raise e => Raise e
    | Ok text =>
        if String.eqb (get_content_type msg) "text/html"
        then Ok (finish ([], [text]))
        else Ok (finish ([text], []))
    end.

(** The body of the fetch loop after a successful fetch: from the raw
    bytes to the record appended to [messages]. *)
Definition decode_message (raw_email : string) : result MessageRecord :=
  let msg := message_from_bytes lib raw_email in
  let subject := _decode_maybe_encoded (msg_get msg "Subject") in
  let from_ := _decode_maybe_encoded (msg_get msg "From") in
  let to := _decode_maybe_encoded (msg_get msg "To") in
  let date := _decode_maybe_encoded (msg_get msg "Date") in
  (* the value is stored as it is; a Header object by its text *)
  let msg_id_val := header_text (msg_get_default msg "Message-ID" "") in
  match _extract_bodies msg with
  | Raise e => Raise e
  | Ok (body_text, body_html) =>
      let body_html :=
        if negb (str_truthy body_html) && str_truthy body_text
        then _plaintext_to_minimal_html body_text
        else body_html in
      Ok {| subject := subject; from_ := from_; to := to; date := date;
            message_id := msg_id_val; body_text := body_text;
            body_html := body_html |}
  end.

End Decoder.

(** ** connect, disconnect, get_messages *)

(** [bytes.split()]: the runs between ASCII whitespace, none of them empty. *)
Definition byte_is_space (c : ascii) : bool :=
  let n := nat_of_ascii c in
  ((9 <=? n)%nat && (n <=? 13)%nat) || (n =? 32)%nat.

Fixpoint bytes_split (s : string) : list string :=
  match s with
  | EmptyString => []
  | String c rest =>
      if byte_is_space c then bytes_split rest
      else match rest with
           | EmptyString => [String c EmptyString]
           | String d _ =>
               if byte_is_space d then String c EmptyString :: bytes_split rest
               else match bytes_split rest with
                    | hd :: tl => String c hd :: tl
                    | [] => [String c EmptyString]
                    end
           end
  end.

(** [data[0]]: IndexError on the empty list. *)
Definition index_first {A : Type} (l : list A) : result A :=
  match l with
  | x :: _ => Ok x
  | [] => Raise (Exn IndexError "list index out of range")
  end.

(** [email.message_from_bytes(data[0][1])] up to the parser: the literal of
    a pair; a bare bytes item indexes to an int (or to nothing), on which
    the parser raises. *)
Definition raw_of_item (it : fetch_item) : result string :=
  match it with
  | ItemTuple _ literal => Ok literal
  | ItemBytes b =>
      if (String.length b <? 2)%nat
      then Raise (Exn IndexError "index out of range")
      else Raise (Exn AttributeError "'int' object has no attribute 'decode'")
  | ItemNone => Raise (Exn OtherException "'NoneType' object is not subscriptable")
  end.

Definition is_none (it : fetch_item) : bool :=
  match it with
  | ItemNone => true
  | _ => false
  end.

(** Truthiness of a list: the empty list is false. *)
Definition list_truthy {A : Type} (l : list A) : bool :=
  match l with
  | [] => false
  | _ :: _ => true
  end.

(** [data[0] is None], which the [or] reaches only for a non-empty list. *)
Definition first_is_none (data : list fetch_item) : bool :=
  match data with
  | it :: _ => is_none it
  | [] => false
  end.

(** How one turn of the loop of [connect] ends: [return], or the next
    host with a new [last_error]. *)
Inductive attempt_result :=
| LoggedIn
| Failed (cause : exn).

(** How the loop of [connect] ends: [return] inside it, or its end with
    the [last_error] it holds. *)
Inductive loop_result :=
| Returned
| Exhausted (last_error : option exn).

(** [f"{last_error}"] *)
Definition str_of_last_error (last_error : option exn) : string :=
  match last_error with
  | Some e => exn_str e
  | None => "None"
  end.

Definition login_failed_msg (host : string) : string :=
  "Не удалось войти в почту на " ++ host.

Definition connect_failed_msg (email_addr : string) (hosts : list string)
    (last_error : option exn) : string :=
  "Не удалось подключиться ни к одному IMAP-хосту для " ++ email_addr ++ ". " ++
  "Пробовали: " ++ str_join ", " hosts ++ ". " ++
  "Последняя ошибка: " ++ str_of_last_error last_error.

Definition no_connection_msg : string := "Нет активного соединения IMAP.".
Definition select_failed_msg (mailbox : string) : string :=
  "Не удалось выбрать ящик " ++ mailbox.
Definition search_failed_msg : string := "Ошибка поиска писем.".

Section Client.
Context (lib : PyLib) (cfg : Config) {W : Type} (T : Transport W).

(** The body of the [for host in ...] loop of [connect], with its
    [except (imaplib.IMAP4.error, OSError)] clause. *)
Definition attempt (host : string) : M W attempt_result :=
  try_except
    (let* c := get_self in
     let* srv := invoke (CallIMAP4_SSL host (DEFAULT_PORT cfg) (timeout c))
                        (IMAP4_SSL T host (DEFAULT_PORT cfg) (timeout c)) in
     set_server (Some srv) >>
     let* c := get_self in
     let* res := with_server (fun h =>
                   invoke (CallLogin h (email c) (password c))
                          (login T h (email c) (password c))) in
     if String.eqb res "OK" then
       set_connected_host (Some host) >>
       ret LoggedIn
     else
       try_except (with_server (fun h => invoke (CallLogout h) (logout T h)))
                  any_exception (fun _ => ret tt) >>
       set_server None >>
       ret (Failed (Exn MailAuthError (login_failed_msg host))))
    is_imap_or_os_error
    (fun e => set_server None >> ret (Failed e)).

Fixpoint connect_loop (hosts : list string) (last_error : option exn)
  : M W loop_result :=
  match hosts with
  | [] => ret (Exhausted last_error)
  | host :: rest =>
      let* r := attempt host in
      match r with
      | LoggedIn => ret Returned
      | Failed cause => connect_loop rest (Some cause)
      end
  end.

(** [self._candidate_hosts()] *)
Definition candidate_hosts_m : M W (list string) :=
  let* c := get_self in lift (_candidate_hosts lib cfg c).

(** [IMAPClient.connect] *)
Definition connect : M W unit :=
  let* hosts := candidate_hosts_m in
  let* r := connect_loop hosts None in
  match r with
  | Returned => ret tt
  | Exhausted last_error =>
      let* c := get_self in
      let* hosts' := candidate_hosts_m in
      raise (Exn MailAuthError (connect_failed_msg (email c) hosts' last_error))
  end.

(** [IMAPClient.disconnect] *)
Definition disconnect : M W unit :=
  let* c := get_self in
  match server c with
  | Some _ =>
      try_finally
        (try_except (with_server (fun h => invoke (CallLogout h) (logout T h)))
                    any_exception (fun _ => ret tt))
        (set_server None >> set_connected_host None)
  | None => ret tt
  end.

(** The [for msg_id in msg_ids] loop of [get_messages]. *)
Fixpoint fetch_loop (fetch_items : string) (msg_ids : list string)
    (messages : list MessageRecord) : M W (list MessageRecord) :=
  match msg_ids with
  | [] => ret messages
  | msg_id :: rest =>
      let* r := with_server (fun h =>
                  invoke (CallFetch h msg_id fetch_items)
                         (fetch T h msg_id fetch_items)) in
      let (typ, data) := r in
      if negb (String.eqb typ "OK") || negb (list_truthy data) || first_is_none data
      then fetch_loop fetch_items rest messages
      else
        let* it := lift (index_first data) in
        let* raw_email := lift (raw_of_item it) in
        let* record := lift (decode_message lib raw_email) in
        fetch_loop fetch_items rest (messages ++ [record])%list
  end.

(** [IMAPClient.get_messages] *)
Definition get_messages (mailbox criteria : string) (limit : Z)
    (mark_seen : bool) : M W (list MessageRecord) :=
  let* c := get_self in
  match server c with
  | None => raise (Exn MailAuthError no_connection_msg)
  | Some _ =>
      let* typ := with_server (fun h =>
                    invoke (CallSelect h mailbox true) (select T h mailbox true)) in
      if negb (String.eqb typ "OK")
      then raise (Exn MailAuthError (select_failed_msg mailbox))
      else
        let* r := with_server (fun h =>
                    invoke (CallSearch h criteria) (search T h criteria)) in
        let (typ, data) := r in
        if negb (String.eqb typ "OK")
        then raise (Exn MailAuthError search_failed_msg)
        else
          let* d0 := lift (index_first data) in
          (* (data[0] or b"").split() *)
          let msg_ids := bytes_split (match d0 with
                                      | Some b => b
                                      | None => ""
                                      end) in
          match msg_ids with
          | [] => ret []
          | _ :: _ =>
              let msg_ids := slice_from (- limit) msg_ids in
              let fetch_items := if mark_seen then "(RFC822)" else "(BODY.PEEK[])" in
              let* messages := fetch_loop fetch_items msg_ids [] in
              ret (rev messages)
          end
  end.

End Client.

(** ** Concrete collaborators for running the model *)

Module Demo.

(** A parser stand-in: the raw bytes become the body of a one-part
    text/plain message whose charset is the text before the first colon
    of the raw bytes, when there is a colon. *)
Definition demo_parse (raw : string) : Message :=
  match str_split ":"%char raw with
  | cs :: _ :: _ => Single [("Subject", raw)] "text/plain" (Some cs) raw
  | _ => Single [("Subject", raw)] "text/plain" None raw
  end.

(** Only latin-1 is a known charset besides utf-8. *)
Definition demo_bytes_decode (cs b : string) : result string :=
  if String.eqb cs "latin-1" then Ok b
  else Raise (Exn LookupError ("unknown encoding: " ++ cs)).

(** One encoded word is known; any other value that starts one is
    malformed; plain values decode to themselves. *)
Definition demo_decode_header (v : string) : result string :=
  if String.eqb v "=?utf-8?q?caf=C3=A9?=" then Ok "café"
  else if str_starts_with "=?" v then Raise (Exn OtherException "malformed encoded word")
  else Ok v.

Definition demo_lib : PyLib :=
  {| str_strip := ascii_strip; str_lower := ascii_lower;
     decode_header_str := demo_decode_header;
     bytes_decode := demo_bytes_decode;
     utf8_replace := fun b => b;
     message_from_bytes := demo_parse |}.

Definition demo_cfg : Config :=
  {| IMAP_SERVERS := <[ "gmail.com" := "imap.gmail.com" ]> ∅;
     DEFAULT_PORT := 993 |}.

(** A server that accepts the first login it sees and rejects every
    later one; the world counts the logins.  A search finds the messages
    1, 2 and 3; every fetch succeeds, with the literal [literal_of] gives
    for the identifier. *)
Definition demo_transport_with (literal_of : string -> string) : Transport nat :=
  {| IMAP4_SSL := fun host _ _ w =>
       if String.eqb host "imap.firstmail.ltd"
       then (Raise (Exn OSError "[Errno 111] Connection refused"), w)
       else (Ok (S w), w);
     login := fun _ _ _ w =>
       (Ok (if Nat.eqb w 0 then "OK" else "NO"), S w);
     logout := fun _ w => (Ok tt, w);
     select := fun _ _ _ w => (Ok "OK", w);
     search := fun _ _ w => (Ok ("OK", [Some "1 2 3"]), w);
     fetch := fun _ msg_id _ w =>
       (Ok ("OK", [ItemTuple "" (literal_of msg_id); ItemBytes ")"]), w) |}.

Definition demo_transport : Transport nat := demo_transport_with (fun i => i).

(** The same server, where message 2 declares a charset nobody knows. *)
Definition demo_transport_klingon : Transport nat :=
  demo_transport_with (fun i => if String.eqb i "2" then "klingon:nuqneH" else i).

Definition fresh (addr : string) (w : nat) : state nat :=
  {| self := __init__ addr "secret" 30; world := w; trace := [] |}.

(** A session established on the first login. *)
Definition established : state nat :=
  snd (connect demo_lib demo_cfg demo_transport (fresh "a@gmail.com" 0)).

(** The same instance after a second connect, which the server rejects. *)
Definition reconnect_failed : state nat :=
  snd (connect demo_lib demo_cfg demo_transport established).

End Demo.

(** ** Vocabulary of the properties *)

(** What [html.escape] makes of one character. *)
Definition escape_char (c : ascii) : string :=
  if Ascii.eqb c "&"%char then "&amp;"
  else if Ascii.eqb c "<"%char then "&lt;"
  else if Ascii.eqb c ">"%char then "&gt;"
  else if Ascii.eqb c dquote then "&quot;"
  else if Ascii.eqb c "'"%char then "&#x27;"
  else String c EmptyString.


(** The instances the attribute writes of a run went through. *)
Definition snapshots (evs : list event) : list client :=
  flat_map (fun ev => match ev with EvSelf c => [c] | EvCall _ => [] end) evs.

(** The hosts a run opened a connection to, in order. *)
Definition opened_hosts (evs : list event) : list string :=
  flat_map (fun ev => match ev with
                      | EvCall (CallIMAP4_SSL host _ _) => [host]
                      | _ => []
                      end) evs.


(** [st'] comes after [st] by the logged events [evs]: the log grew by
    them, and the instance is the last one written, if any was. *)
Definition follows {W : Type} (st st' : state W) (evs : list event) : Prop :=
  trace st' = (trace st ++ evs)%list /\
  self st' = List.last (snapshots evs) (self st).

(** The account of an instance never changes during a run. *)
Definition same_account (c c' : client) : Prop :=
  email c' = email c /\ password c' = password c /\ timeout c' = timeout c.

(** The instance with both session attributes cleared. *)
Definition cleared (c : client) : client :=
  {| email := email c; password := password c; timeout := timeout c;
     server := None; _connected_host := None |}.

(** Two states that [connect] cannot tell apart: the same account, the
    same handle, the same world. *)
Definition agree {W : Type} (st1 st2 : state W) : Prop :=
  email (self st1) = email (self st2) /\
  password (self st1) = password (self st2) /\
  timeout (self st1) = timeout (self st2) /\
  server (self st1) = server (self st2) /\
  world st1 = world st2.

(** The state after one logged fetch. *)
Definition after_fetch {W : Type} (st : state W) (h : handle)
    (msg_id items : string) (w : W) : state W :=
  {| self := self st; world := w;
     trace := (trace st ++ [EvCall (CallFetch h msg_id items)])%list |}.

(** The [fetch_items] of [get_messages]. *)
Definition fetch_mode (mark_seen : bool) : string :=
  if mark_seen then "(RFC822)" else "(BODY.PEEK[])".

(** The state after the logged select, and after the logged search. *)
Definition after_select {W : Type} (mailbox : string) (st : state W)
    (h : handle) (w : W) : state W :=
  {| self := self st; world := w;
     trace := (trace st ++ [EvCall (CallSelect h mailbox true)])%list |}.

Definition after_search {W : Type} (mailbox criteria : string) (st : state W)
    (h : handle) (w : W) : state W :=
  {| self := self st; world := w;
     trace := ((trace st ++ [EvCall (CallSelect h mailbox true)])
               ++ [EvCall (CallSearch h criteria)])%list |}.

(** What the seen flag asks of a logged event: a select is read-only,
    and a fetch peeks unless [mark_seen] was asked for; get_messages logs
    nothing but selects, searches and fetches. *)
Definition respects_seen_flag (mark_seen : bool) (ev : event) : Prop :=
  match ev with
  | EvCall (CallSelect _ _ readonly) => readonly = true
  | EvCall (CallFetch _ _ items) =>
      items = if mark_seen then "(RFC822)" else "(BODY.PEEK[])"
  | EvCall (CallSearch _ _) => True
  | _ => False
  end.

(** ** The web front end (app/web.py) *)

(** [request.session]: the signed cookie session, a dictionary from
    strings to strings. *)
Definition web_session := gmap string string.

(** Truthiness of what [dict.get] returns: None and the empty string are
    false. *)
Definition opt_truthy (v : option string) : bool :=
  match v with
  | Some s => str_truthy s
  | None => false
  end.

(** [WebMailApp._get_credentials]: the dictionary with the two keys, as a
    pair (email, password), or None. *)
Definition _get_credentials (sess : web_session) : option (string * string) :=
  match sess !! "email", sess !! "password" with
  | Some e, Some p => if str_truthy e && str_truthy p then Some (e, p) else None
  | _, _ => None
  end.

(** What a route hands back to the framework. *)
Inductive template_context :=
| CtxLogin
| CtxInbox (email_ : string) (messages : list MessageRecord) (limit : Z).

Inductive response :=
| RedirectResponse (url : string) (status_code : Z)
| TemplateResponse (name : string) (context : template_context).

(** How a route ends: with a response, with the HTTPException it raises,
    or with another exception that leaves it. *)
Inductive route_outcome :=
| Responded (r : response)
| HTTPException (status_code : Z) (detail : string)
| Propagated (e : exn).

Section Web.
Context (lib : PyLib) (cfg : Config) {W : Type} (T : Transport W).

(** [IMAPClient(email, password)] on the current world and log: the
    timeout takes its default, 30. *)
Definition new_client (email_addr pass : string) (w : W) (tr : list event)
  : state W :=
  {| self := __init__ email_addr pass 30; world := w; trace := tr |}.

(** [WebMailApp._fetch_messages]: connect, get the messages of INBOX
    without marking them seen, and disconnect in any case. *)
Definition _fetch_messages (email_addr pass : string) (limit : Z)
    (w : W) (tr : list event) : result (list MessageRecord) * state W :=
  try_finally
    (connect lib cfg T >> get_messages lib T "INBOX" "ALL" limit false)
    (disconnect T)
    (new_client email_addr pass w tr).

(** The route GET /. *)
Definition index (sess : web_session) : response :=
  match _get_credentials sess with
  | Some _ => RedirectResponse "/inbox" 303
  | None => TemplateResponse "login.html" CtxLogin
  end.

(** The route POST /login: the outcome, the session, and the client
    instance with the world and the log as the route leaves them. *)
Definition login_route (sess : web_session) (email_addr pass : string)
    (w : W) (tr : list event) : route_outcome * web_session * state W :=
  let (r, st1) := connect lib cfg T (new_client email_addr pass w tr) in
  (* finally: await client.disconnect() *)
  let (rd, st2) := disconnect T st1 in
  match rd with
  | Raise e => (Propagated e, sess, st2)
  | Ok _ =>
      match r with
      | Raise e => (HTTPException 401 ("Не удалось войти: " ++ exn_str e), sess, st2)
      | Ok _ =>
          (Responded (RedirectResponse "/inbox" 303),
           <[ "password" := pass ]> (<[ "email" := email_addr ]> sess), st2)
      end
  end.

(** The route POST /logout. *)
Definition logout_route (sess : web_session) : response * web_session :=
  (RedirectResponse "/" 303, ∅).

(** The route GET /inbox; without credentials no client is made, so the
    world and the log come back as they were. *)
Definition inbox (sess : web_session) (limit : Z) (w : W) (tr : list event)
  : route_outcome * web_session * (W * list event) :=
  match _get_credentials sess with
  | None => (Responded (RedirectResponse "/" 303), sess, (w, tr))
  | Some (e, p) =>
      let (r, st) := _fetch_messages e p limit w tr in
      match r with
      | Raise _ => (Responded (RedirectResponse "/" 303), ∅, (world st, trace st))
      | Ok messages =>
          (Responded (TemplateResponse "inbox.html" (CtxInbox e messages limit)),
           sess, (world st, trace st))
      end
  end.

End Web.

(** ** Logging (modules/logger.py) *)

(** The handlers [configure] installs, with the level and the formatter
    strings they are given. *)
Inductive log_handler :=
| RichHandler (lvl : Z) (fmt_ datefmt_ : string)
| FileHandler (filename : string) (lvl : Z) (fmt_ datefmt_ : string).

(** A [logging.Logger]: what [configure] sets on it. *)
Record py_logger := {
  lg_level : Z;
  lg_handlers : list log_handler;
  lg_propagate : bool
}.

(** The loggers of the logging module, by name. *)
Definition log_registry := gmap string py_logger.

(** A logger as the logging module first makes it: level NOTSET, no
    handler, propagating. *)
Definition new_logger : py_logger :=
  {| lg_level := 0; lg_handlers := []; lg_propagate := true |}.

Definition logging_WARNING : Z := 30.

(** The root logger of the logging module as it is at import:
    [RootLogger(WARNING)]. *)
Definition root_logger : py_logger :=
  {| lg_level := logging_WARNING; lg_handlers := []; lg_propagate := true |}.

(** The logger [logging.getLogger(name)] stands for: an empty name and
    the name root both give the root logger of the logging module, whose
    name is root; every other name gives the logger of that name. *)
Definition logger_key (name : string) : string :=
  if str_truthy name then name else "root".

(** A logger not touched so far. *)
Definition initial_logger (key : string) : py_logger :=
  if String.eqb key "root" then root_logger else new_logger.

(** [logging.getLogger(name)]: the logger the name stands for, made on
    first use. *)
Definition getLogger (name : string) (reg : log_registry) : py_logger * log_registry :=
  match reg !! logger_key name with
  | Some lg => (lg, reg)
  | None => (initial_logger (logger_key name),
             <[ logger_key name := initial_logger (logger_key name) ]> reg)
  end.

Record LoggerManager := {
  root_name : string;
  level : Z;
  fmt : string;
  datefmt : string;
  log_file : option string;
  _configured : bool
}.

Definition logging_DEBUG : Z := 10.
Definition logging_INFO : Z := 20.

(** [LoggerManager()] with its defaults: the global [_logger_manager]. *)
Definition _logger_manager : LoggerManager :=
  {| root_name := "app"; level := logging_DEBUG;
     fmt := "[%(asctime)s] [%(levelname)s] [%(name)s] %(message)s";
     datefmt := "%H:%M:%S"; log_file := None; _configured := false |}.

Definition set_configured (m : LoggerManager) (b : bool) : LoggerManager :=
  {| root_name := root_name m; level := level m; fmt := fmt m;
     datefmt := datefmt m; log_file := log_file m; _configured := b |}.

Section Logging.
(** [Formatter fmt datefmt] is what [logging.Formatter(fmt, datefmt=...)]
    does: it returns, or raises (a ValueError, for a format that is
    invalid for the percent style).  [open_log path] is what opening the
    file of a FileHandler does: it returns, or raises (an OSError, for a
    path that cannot be written). *)
Context (Formatter : string -> string -> result unit).
Context (open_log : string -> result unit).

(** [LoggerManager.configure] *)
Definition configure (m : LoggerManager) (reg : log_registry)
  : result unit * (LoggerManager * log_registry) :=
  if _configured m then (Ok tt, (m, reg))
  else
    match Formatter (fmt m) (datefmt m) with
    | Raise e => (Raise e, (m, reg))
    | Ok _ =>
        let (root, reg) := getLogger (root_name m) reg in
        (* root.setLevel; root.handlers.clear(); root.addHandler(console) *)
        let root := {| lg_level := level m;
                       lg_handlers := [RichHandler (level m) (fmt m) (datefmt m)];
                       lg_propagate := lg_propagate root |} in
        let with_file :=
          match log_file m with
          | Some path =>
              if str_truthy path then
                match open_log path with
                | Ok _ =>
                    Ok {| lg_level := lg_level root;
                          lg_handlers := (lg_handlers root ++
                                          [FileHandler path (level m) (fmt m) (datefmt m)])%list;
                          lg_propagate := lg_propagate root |}
                | Raise e => Raise e
                end
              else Ok root
          | None => Ok root
          end in
        match with_file with
        | Raise e => (Raise e, (m, <[ logger_key (root_name m) := root ]> reg))
        | Ok root =>
            (Ok tt,
             (set_configured m true,
              <[ logger_key (root_name m) := {| lg_level := lg_level root;
                                                lg_handlers := lg_handlers root;
                                                lg_propagate := false |} ]> reg))
        end
    end.

(** The name of the logger [LoggerManager.get_logger] asks for. *)
Definition logger_name (m : LoggerManager) (name : option string) : string :=
  match name with
  | None => root_name m
  | Some n =>
      if negb (str_truthy n) || String.eqb n (root_name m) then root_name m
      else root_name m ++ "." ++ n
  end.

(** [LoggerManager.get_logger]: the logger returned, as the name it has
    in the logging module. *)
Definition manager_get_logger (m : LoggerManager) (name : option string)
    (reg : log_registry) : result string * (LoggerManager * log_registry) :=
  match configure m reg with
  | (Raise e, s) => (Raise e, s)
  | (Ok _, (m', reg')) =>
      let n := logger_name m' name in
      (Ok (logger_key n), (m', snd (getLogger n reg')))
  end.

(** [init_logging(level=..., log_file=...)] on the global manager. *)
Definition init_logging (lvl : Z) (file : option string)
    (m : LoggerManager) (reg : log_registry)
  : result unit * (LoggerManager * log_registry) :=
  configure {| root_name := root_name m; level := lvl; fmt := fmt m;
               datefmt := datefmt m; log_file := file;
               _configured := _configured m |} reg.

(** The [child_name] of the module-level [get_logger]. *)
Definition child_name (module_name : string) : string :=
  str_replace_char "\"%char "."
    (str_replace_char "/"%char "." module_name).

(** The module-level [get_logger(module_name)]. *)
Definition get_logger (module_name : string) (m : LoggerManager)
    (reg : log_registry) : result string * (LoggerManager * log_registry) :=
  manager_get_logger m (Some (child_name module_name)) reg.

End Logging.

(** ** More vocabulary for the properties *)

(** What one fetch response adds to the batch: nothing when it is
    skipped, one record when it decodes; or the exception that ends the
    loop. *)
Definition kept_record (lib : PyLib) (r : string * list fetch_item)
  : result (option MessageRecord) :=
  let (typ, data) := r in
  if negb (String.eqb typ "OK") || negb (list_truthy data) || first_is_none data
  then Ok None
  else
    match index_first data with
    | Raise e => Raise e
    | Ok it =>
        match raw_of_item it with
        | Raise e => Raise e
        | Ok raw_email =>
            match decode_message lib raw_email with
            | Raise e => Raise e
            | Ok record => Ok (Some record)
            end
        end
    end.



(** What get_messages may log: the select of its mailbox, read-only,
    the search with its criteria, and fetches in the mode of the flag. *)
Definition mailbox_event_ok (mailbox criteria : string) (mark_seen : bool)
    (ev : event) : Prop :=
  match ev with
  | EvCall (CallSelect _ mb readonly) => mb = mailbox /\ readonly = true
  | EvCall (CallSearch _ cr) => cr = criteria
  | EvCall (CallFetch _ _ items) => items = fetch_mode mark_seen
  | _ => False
  end.

(** An event that touches no mailbox: no select, search or fetch. *)
Definition no_mailbox_call (ev : event) : Prop :=
  match ev with
  | EvCall (CallSelect _ _ _) | EvCall (CallSearch _ _) | EvCall (CallFetch _ _ _) => False
  | _ => True
  end.

(** What the front end may do to the mailbox: select INBOX read-only,
    search ALL, fetch without marking seen. *)
Definition front_end_event_ok (ev : event) : Prop :=
  match ev with
  | EvCall (CallSelect _ mb readonly) => mb = "INBOX" /\ readonly = true
  | EvCall (CallSearch _ cr) => cr = "ALL"
  | EvCall (CallFetch _ _ items) => items = "(BODY.PEEK[])"
  | _ => True
  end.

Definition option_list {A : Type} (o : option A) : list A :=
  match o with
  | Some a => [a]
  | None => []
  end.

(** What connect may log for the instance [c] with the candidates
    [hosts]: opening a candidate with the configured port and the timeout
    of the instance, logging in with its address and password, logging
    out, and attribute writes that keep the account. *)
Definition connect_event_ok (cfg : Config) (c : client) (hosts : list string)
    (ev : event) : Prop :=
  match ev with
  | EvCall (CallIMAP4_SSL host port tmo) =>
      In host hosts /\ port = DEFAULT_PORT cfg /\ tmo = timeout c
  | EvCall (CallLogin _ user pass) => user = email c /\ pass = password c
  | EvCall (CallLogout _) => True
  | EvCall _ => False
  | EvSelf c' => same_account c c'
  end.

(** The file [configure] opens, if any. *)
Definition wanted_file (m : LoggerManager) : option string :=
  match log_file m with
  | Some path => if str_truthy path then Some path else None
  | None => None
  end.

Module DemoWeb.

(** A session holding the account of the running example. *)
Definition logged_in : web_session :=
  <[ "password" := "secret" ]> (<[ "email" := "a@gmail.com" ]> ∅).

(** A server scripted by its answers to select, search and login; it
    accepts every connection and every logout, and answers a fetch with
    the identifier as the literal. *)
Definition scripted (select_typ : string)
    (search_answer : string * list (option string))
    (login_answer : result string) : Transport nat :=
  {| IMAP4_SSL := fun _ _ _ w => (Ok (S w), w);
     login := fun _ _ _ w => (login_answer, S w);
     logout := fun _ w => (Ok tt, w);
     select := fun _ _ _ w => (Ok select_typ, w);
     search := fun _ _ w => (Ok search_answer, w);
     fetch := fun _ msg_id _ w => (Ok ("OK", [ItemTuple "" msg_id]), w) |}.

(** A server at which every login raises an exception that is neither
    IMAP4.error nor OSError, as imaplib does for a password it cannot
    encode. *)
Definition aborting : Transport nat :=
  scripted "OK" ("OK", [Some "1"])
    (Raise (Exn OtherException "'ascii' codec can't encode character"))%string.

(** A new instance after a connect to that server. *)
Definition aborted : state nat :=
  snd (connect Demo.demo_lib Demo.demo_cfg aborting (Demo.fresh "a@gmail.com" 0)).

(** A state with handle 7 bound, as after a connect. *)
Definition bound : state nat :=
  {| self := {| email := "a@gmail.com"; password := "secret"; timeout := 30;
                server := Some 7%nat; _connected_host := Some "imap.gmail.com" |};
     world := 0%nat; trace := [] |}.

(** What the server of the running example answers to a fetch, and the
    record the client makes of it. *)
Definition demo_resp (i : string) : string * list fetch_item :=
  ("OK", [ItemTuple "" i; ItemBytes ")"]).

Definition demo_keep (i : string) : option MessageRecord :=
  match kept_record Demo.demo_lib (demo_resp i) with
  | Ok k => k
  | Raise _ => None
  end.

(** A stand-in for the check of the format: a format with a percent
    field is taken as valid. *)
Definition demo_formatter (fmt_ datefmt_ : string) : result unit :=
  if str_contains "%(" fmt_ then Ok tt
  else Raise (Exn ValueError ("Invalid format '" ++ fmt_ ++ "' for '%' style")).

(** Only app.log can be opened. *)
Definition demo_open_log (path : string) : result unit :=
  if String.eqb path "app.log" then Ok tt
  else Raise (Exn OSError "[Errno 13] Permission denied").

End DemoWeb.

Arguments login_failed_msg : simpl never.
Arguments connect_failed_msg : simpl never.
Arguments select_failed_msg : simpl never.
Arguments no_connection_msg : simpl never.
Arguments search_failed_msg : simpl never.

(** * Properties *)

(** ** Candidate hosts *)

Lemma index_last_app {A : Type} (front l : list A) :
  l <> [] -> index_last (front ++ l)%list = index_last l.
Proof.
  intros Hne. unfold index_last. rewrite rev_app_distr.
  destruct (rev l) as [|x r] eqn:Hrev.
  - apply (f_equal (@rev A)) in Hrev. rewrite rev_involutive in Hrev.
    simpl in Hrev. contradiction.
  - reflexivity.
Qed.

Lemma str_split_nonempty (sep : ascii) (s : string) : str_split sep s <> [].
Proof.
  destruct s as [|c rest]; simpl; [discriminate|].
  destruct (Ascii.eqb c sep); [discriminate|].
  destruct (str_split sep rest); discriminate.
Qed.

(** Without the separator the split is the string itself. *)
Lemma str_split_without (sep : ascii) (s : string) :
  str_has sep s = false -> str_split sep s = [s].
Proof.
  induction s as [|c rest IH]; simpl; intros H; [reflexivity|].
  apply orb_false_iff in H. destruct H as [Hc Hrest].
  rewrite Hc, (IH Hrest). reflexivity.
Qed.

(** What follows a separator is split on its own. *)
Lemma str_split_after (sep : ascii) (pre d : string) :
  exists f0 front,
    str_split sep (pre ++ String sep d) = ((f0 :: front) ++ str_split sep d)%list.
Proof.
  induction pre as [|c p IH]; simpl.
  - rewrite Ascii.eqb_refl. exists EmptyString, []. reflexivity.
  - destruct IH as (f0 & front & IH). rewrite IH.
    destruct (Ascii.eqb c sep).
    + exists EmptyString, (f0 :: front). reflexivity.
    + exists (String c f0), front. reflexivity.
Qed.

Lemma index_last_split_after (sep : ascii) (pre d : string) :
  str_has sep d = false ->
  index_last (str_split sep (pre ++ String sep d)) = Ok d.
Proof.
  intros Hd. destruct (str_split_after sep pre d) as (f0 & front & ->).
  rewrite index_last_app by apply str_split_nonempty.
  rewrite (str_split_without _ _ Hd). reflexivity.
Qed.

Lemma index_last_split_total (sep : ascii) (s : string) :
  exists seg, index_last (str_split sep s) = Ok seg.
Proof.
  unfold index_last.
  destruct (rev (str_split sep s)) as [|x r] eqn:Hrev.
  - apply (f_equal (@rev string)) in Hrev. rewrite rev_involutive in Hrev.
    exfalso. exact (str_split_nonempty sep s Hrev).
  - exists x. reflexivity.
Qed.

Lemma lookup_domain_total (lib : PyLib) (c : client) :
  exists domain, lookup_domain lib c = Ok domain.
Proof.
  unfold lookup_domain.
  destruct (index_last_split_total at_sign (email c)) as [seg ->].
  eauto.
Qed.

Lemma candidate_hosts_total (lib : PyLib) (cfg : Config) (c : client) :
  exists host rest, _candidate_hosts lib cfg c = Ok (host :: rest).
Proof.
  unfold _candidate_hosts.
  destruct (lookup_domain_total lib c) as [domain ->].
  destruct (IMAP_SERVERS cfg !! domain) as [host|].
  - destruct (str_truthy host); unfold fallback_hosts; eauto.
  - unfold fallback_hosts; eauto.
Qed.

(** C4: on a table of host names (none of them empty), an address whose
    domain is in the table has exactly the mapped host as its only
    candidate, and an address whose domain is not in the table has the
    two default hosts, in their fixed order. *)
Theorem candidate_hosts_mapped_or_default (lib : PyLib) (cfg : Config) (c : client)
    (domain : string) :
  (forall d h, IMAP_SERVERS cfg !! d = Some h -> h <> "") ->
  lookup_domain lib c = Ok domain ->
  (forall host, IMAP_SERVERS cfg !! domain = Some host ->
     _candidate_hosts lib cfg c = Ok [host]) /\
  (IMAP_SERVERS cfg !! domain = None ->
     _candidate_hosts lib cfg c = Ok ["imap.firstmail.ltd"; "imap.notletters.com"]).
Proof.
  intros Htable Hdom. unfold _candidate_hosts. rewrite Hdom. split.
  - intros host Hlk. rewrite Hlk.
    destruct host; [exfalso; exact (Htable _ _ Hlk eq_refl)|reflexivity].
  - intros Hlk. rewrite Hlk. reflexivity.
Qed.

Lemma candidate_hosts_mapped_or_default_witness :
  _candidate_hosts Demo.demo_lib Demo.demo_cfg (__init__ "a@gmail.com" "x" 30)
    = Ok ["imap.gmail.com"]
  /\ _candidate_hosts Demo.demo_lib Demo.demo_cfg (__init__ "a@example.org" "x" 30)
    = Ok ["imap.firstmail.ltd"; "imap.notletters.com"].
Proof.
  assert (Htable : forall d h, IMAP_SERVERS Demo.demo_cfg !! d = Some h -> h <> "").
  { intros d h. unfold Demo.demo_cfg. cbn [IMAP_SERVERS].
    intros Hlk. apply lookup_insert_Some in Hlk.
    destruct Hlk as [(_ & <-)|(_ & Hlk)]; [discriminate|].
    rewrite lookup_empty in Hlk. discriminate Hlk. }
  split.
  - apply (proj1 (candidate_hosts_mapped_or_default Demo.demo_lib Demo.demo_cfg
                    (__init__ "a@gmail.com" "x" 30) "gmail.com" Htable eq_refl)).
    vm_compute; reflexivity.
  - apply (proj2 (candidate_hosts_mapped_or_default Demo.demo_lib Demo.demo_cfg
                    (__init__ "a@example.org" "x" 30) "example.org" Htable eq_refl)).
    vm_compute; reflexivity.
Defined.

(** ** Header decoding *)

(** C8: header decoding gives the decoded string when decoding succeeds,
    the raw value unchanged when decoding raises, and the empty string
    when the header is missing; so a record whose message lacks one of
    the four headers has the empty string in that field. *)
Theorem decode_maybe_encoded_cases (lib : PyLib) :
  (forall v d, decode_header_str lib v = Ok d ->
     _decode_maybe_encoded lib (Some v) = d) /\
  (forall v e, decode_header_str lib v = Raise e ->
     _decode_maybe_encoded lib (Some v) = v) /\
  _decode_maybe_encoded lib None = "" /\
  (forall raw r, decode_message lib raw = Ok r ->
     let msg := message_from_bytes lib raw in
     (msg_get lib msg "Subject" = None -> subject r = "") /\
     (msg_get lib msg "From" = None -> from_ r = "") /\
     (msg_get lib msg "To" = None -> to r = "") /\
     (msg_get lib msg "Date" = None -> date r = "")).
Proof.
  repeat split.
  - intros v d H. simpl. rewrite H. reflexivity.
  - intros v e H. simpl. rewrite H. reflexivity.
  - unfold decode_message in H.
    destruct (_extract_bodies lib (message_from_bytes lib raw)) as [[bt bh]|];
      [|discriminate].
    injection H as <-. intros ->. reflexivity.
  - unfold decode_message in H.
    destruct (_extract_bodies lib (message_from_bytes lib raw)) as [[bt bh]|];
      [|discriminate].
    injection H as <-. intros ->. reflexivity.
  - unfold decode_message in H.
    destruct (_extract_bodies lib (message_from_bytes lib raw)) as [[bt bh]|];
      [|discriminate].
    injection H as <-. intros ->. reflexivity.
  - unfold decode_message in H.
    destruct (_extract_bodies lib (message_from_bytes lib raw)) as [[bt bh]|];
      [|discriminate].
    injection H as <-. intros ->. reflexivity.
Qed.

Lemma decode_maybe_encoded_cases_witness :
  _decode_maybe_encoded Demo.demo_lib (Some "=?utf-8?q?caf=C3=A9?=") = "café"
  /\ _decode_maybe_encoded Demo.demo_lib (Some "=?utf-8?broken") = "=?utf-8?broken"
  /\ exists r, decode_message Demo.demo_lib "7" = Ok r /\ from_ r = "".
Proof.
  destruct (decode_maybe_encoded_cases Demo.demo_lib) as (Hok & Hraise & _ & Hrec).
  split; [|split].
  - apply Hok. reflexivity.
  - apply (Hraise _ (Exn OtherException "malformed encoded word")). reflexivity.
  - eexists. split; [reflexivity|]. apply (Hrec "7"); reflexivity.
Defined.

(** ** The plain-text fallback *)

Lemma str_app_assoc (x y z : string) : (x ++ y) ++ z = x ++ (y ++ z).
Proof.
  induction x as [|d x IH]; [reflexivity|].
  change (String d ((x ++ y) ++ z) = String d (x ++ (y ++ z))).
  rewrite IH. reflexivity.
Qed.

Lemma str_replace_char_app (c : ascii) (by_ x y : string) :
  str_replace_char c by_ (x ++ y)
  = str_replace_char c by_ x ++ str_replace_char c by_ y.
Proof.
  induction x as [|d x IH]; simpl; [reflexivity|].
  destruct (Ascii.eqb d c); rewrite IH.
  - symmetry. apply str_app_assoc.
  - reflexivity.
Qed.

(** The five passes of [html.escape] amount to one pass. *)
Lemma html_escape_cons (d : ascii) (rest : string) :
  html_escape (String d rest) = escape_char d ++ html_escape rest.
Proof.
  unfold html_escape, escape_char.
  destruct (Ascii.eqb d "&"%char) eqn:E1.
  { apply Ascii.eqb_eq in E1. subst d.
    cbn [str_replace_char Ascii.eqb Bool.eqb dquote].
    rewrite !str_replace_char_app. reflexivity. }
  destruct (Ascii.eqb d "<"%char) eqn:E2.
  { apply Ascii.eqb_eq in E2. subst d.
    cbn [str_replace_char Ascii.eqb Bool.eqb dquote].
    rewrite !str_replace_char_app. reflexivity. }
  destruct (Ascii.eqb d ">"%char) eqn:E3.
  { apply Ascii.eqb_eq in E3. subst d.
    cbn [str_replace_char Ascii.eqb Bool.eqb dquote].
    rewrite !str_replace_char_app. reflexivity. }
  destruct (Ascii.eqb d dquote) eqn:E4.
  { apply Ascii.eqb_eq in E4. subst d.
    cbn [str_replace_char Ascii.eqb Bool.eqb dquote].
    rewrite !str_replace_char_app. reflexivity. }
  destruct (Ascii.eqb d "'"%char) eqn:E5.
  { apply Ascii.eqb_eq in E5. subst d.
    cbn [str_replace_char Ascii.eqb Bool.eqb dquote]. reflexivity. }
  cbn [str_replace_char]. rewrite E1.
  cbn [str_replace_char]. rewrite E2.
  cbn [str_replace_char]. rewrite E3.
  cbn [str_replace_char]. rewrite E4.
  cbn [str_replace_char]. rewrite E5.
  reflexivity.
Qed.

Lemma html_unescape_escape_char (d : ascii) (s : string) :
  html_unescape_from 0 (escape_char d ++ s) = String d (html_unescape_from 0 s).
Proof.
  unfold escape_char.
  destruct (Ascii.eqb d "&"%char) eqn:E1.
  { apply Ascii.eqb_eq in E1. subst d. reflexivity. }
  destruct (Ascii.eqb d "<"%char) eqn:E2.
  { apply Ascii.eqb_eq in E2. subst d. reflexivity. }
  destruct (Ascii.eqb d ">"%char) eqn:E3.
  { apply Ascii.eqb_eq in E3. subst d. reflexivity. }
  destruct (Ascii.eqb d dquote) eqn:E4.
  { apply Ascii.eqb_eq in E4. subst d. reflexivity. }
  destruct (Ascii.eqb d "'"%char) eqn:E5.
  { apply Ascii.eqb_eq in E5. subst d. reflexivity. }
  change (html_unescape_from 0 (String d s) = String d (html_unescape_from 0 s)).
  cbn [html_unescape_from]. rewrite E1. reflexivity.
Qed.

(** Unescaping what [html.escape] wrote gives the text back. *)
Lemma html_unescape_escape (s : string) : html_unescape (html_escape s) = s.
Proof.
  unfold html_unescape.
  induction s as [|d s IH]; [reflexivity|].
  rewrite html_escape_cons, html_unescape_escape_char, IH. reflexivity.
Qed.

Lemma str_has_app (c : ascii) (x y : string) :
  str_has c (x ++ y) = str_has c x || str_has c y.
Proof.
  induction x as [|d x IH]; simpl; [reflexivity|].
  rewrite IH. apply orb_assoc.
Qed.

(** None of the four characters that open or close markup or an attribute
    value survives [html.escape]. *)
Lemma html_escape_no_markup (s : string) :
  str_has "<"%char (html_escape s) = false /\
  str_has ">"%char (html_escape s) = false /\
  str_has dquote (html_escape s) = false /\
  str_has "'"%char (html_escape s) = false.
Proof.
  induction s as [|d s (IH1 & IH2 & IH3 & IH4)]; [repeat split|].
  rewrite html_escape_cons, !str_has_app, IH1, IH2, IH3, IH4, !orb_false_r.
  unfold escape_char.
  destruct (Ascii.eqb d "&"%char) eqn:E1; [repeat split|].
  destruct (Ascii.eqb d "<"%char) eqn:E2; [repeat split|].
  destruct (Ascii.eqb d ">"%char) eqn:E3; [repeat split|].
  destruct (Ascii.eqb d dquote) eqn:E4; [repeat split|].
  destruct (Ascii.eqb d "'"%char) eqn:E5; [repeat split|].
  cbn [str_has]. rewrite E2, E3, E4, E5. repeat split.
Qed.

(** A part that is not text/html leaves the HTML parts as they are. *)
Lemma collect_part_keeps_html (lib : PyLib) (acc acc' : list string * list string)
    (part : Message) :
  get_content_type part <> "text/html" ->
  collect_part lib acc part = Ok acc' ->
  snd acc' = snd acc.
Proof.
  intros Hct. unfold collect_part. destruct acc as [plain html].
  destruct (String.eqb (get_content_maintype part) "multipart");
    [intros H; injection H as <-; reflexivity|].
  destruct (attachment_test lib (msg_get_default lib part "Content-Disposition" ""))
    as [[|]|e]; [intros H; injection H as <-; reflexivity| |intros H; discriminate H].
  destruct (String.eqb (get_content_type part) "text/plain");
    [intros H; injection H as <-; reflexivity|].
  destruct (String.eqb (get_content_type part) "text/html") eqn:E;
    [|intros H; injection H as <-; reflexivity].
  apply String.eqb_eq in E. contradiction.
Qed.

Lemma fold_collect_keeps_html (lib : PyLib) (parts : list Message)
    (acc acc' : list string * list string) :
  (forall p, In p parts -> get_content_type p <> "text/html") ->
  collect_parts lib parts acc = Ok acc' ->
  snd acc' = snd acc.
Proof.
  revert acc. induction parts as [|p parts IH]; intros acc Hall.
  - intros H. injection H as <-. reflexivity.
  - cbn [collect_parts].
    destruct (collect_part lib acc p) as [acc1|e] eqn:E; [|intros H; discriminate H].
    intros H. rewrite (IH acc1 (fun q Hq => Hall q (or_intror Hq)) H).
    apply (collect_part_keeps_html lib acc acc1 p); [|exact E].
    apply Hall. left. reflexivity.
Qed.

(** A message none of whose parts is text/html has the stripped empty
    string as its extracted HTML body. *)
Lemma extract_bodies_no_html_part (lib : PyLib) (msg : Message) (t h : string) :
  (forall p, In p (walk msg) -> get_content_type p <> "text/html") ->
  _extract_bodies lib msg = Ok (t, h) ->
  h = str_strip lib "".
Proof.
  intros Hall. unfold _extract_bodies.
  destruct (is_multipart msg).
  - destruct (collect_parts lib (walk msg) ([], [])) as [acc|e] eqn:E;
      [|intros H; discriminate H].
    intros H. injection H as _ <-.
    rewrite (fold_collect_keeps_html lib (walk msg) ([], []) acc Hall E). reflexivity.
  - destruct (decode_replace lib (charset_or_utf8 msg) (payload_or_empty msg))
      as [text|e]; [|intros H; discriminate H].
    destruct (String.eqb (get_content_type msg) "text/html") eqn:E.
    + apply String.eqb_eq in E. exfalso. apply (Hall msg); [|exact E].
      destruct msg; left; reflexivity.
    + intros H. injection H as _ <-. reflexivity.
Qed.

(** C7: when the extracted HTML body is empty and the extracted plain
    text is not, the record's body_html is the escaped plain text between
    the opening and closing tag of the pre-wrap container: it is not
    empty, no markup character of the text is left unescaped, and
    unescaping the wrapped content gives the plain text back. *)
Theorem plaintext_fallback_roundtrip (lib : PyLib) (raw text : string) :
  _extract_bodies lib (message_from_bytes lib raw) = Ok (text, "") ->
  text <> "" ->
  exists r,
    decode_message lib raw = Ok r /\
    body_text r = text /\
    body_html r
      = "<pre style='white-space:pre-wrap;margin:0'>" ++ html_escape text ++ "</pre>" /\
    body_html r <> "" /\
    html_unescape (html_escape text) = text /\
    str_has "<"%char (html_escape text) = false /\
    str_has ">"%char (html_escape text) = false /\
    str_has dquote (html_escape text) = false /\
    str_has "'"%char (html_escape text) = false.
Proof.
  intros Hex Hne. unfold decode_message. rewrite Hex.
  destruct text as [|c text']; [contradiction|].
  eexists. split; [reflexivity|]. cbn [body_text body_html str_truthy negb andb].
  split; [reflexivity|]. split; [reflexivity|]. split; [discriminate|].
  split; [apply html_unescape_escape|apply html_escape_no_markup].
Qed.

Lemma plaintext_fallback_roundtrip_witness :
  exists r,
    decode_message Demo.demo_lib "a < b & c" = Ok r /\
    body_text r = "a < b & c" /\
    body_html r
      = "<pre style='white-space:pre-wrap;margin:0'>" ++ html_escape "a < b & c" ++ "</pre>" /\
    body_html r <> "" /\
    html_unescape (html_escape "a < b & c") = "a < b & c" /\
    str_has "<"%char (html_escape "a < b & c") = false /\
    str_has ">"%char (html_escape "a < b & c") = false /\
    str_has dquote (html_escape "a < b & c") = false /\
    str_has "'"%char (html_escape "a < b & c") = false.
Proof.
  apply (plaintext_fallback_roundtrip Demo.demo_lib "a < b & c" "a < b & c").
  - reflexivity.
  - discriminate.
Defined.

(** ** Slices *)

(** [l[-0:]] is [l[0:]]: the whole list. *)
Lemma slice_from_zero {A : Type} (l : list A) : slice_from (- 0) l = l.
Proof.
  unfold slice_from. change (- 0 <? 0) with false. cbv iota.
  replace (Z.to_nat (Z.min (- 0) (Z.of_nat (length l)))) with 0%nat by lia.
  reflexivity.
Qed.

(** For a limit of at least one, [l[-limit:]] is the last [limit]
    elements, or all of them when there are fewer. *)
Lemma slice_from_last {A : Type} (l : list A) (limit : Z) :
  1 <= limit ->
  slice_from (- limit) l = skipn (length l - Z.to_nat limit) l.
Proof.
  intros Hl. unfold slice_from.
  destruct (Z.ltb_spec (- limit) 0) as [_|H]; [|lia].
  f_equal. lia.
Qed.

Lemma slice_from_length {A : Type} (l : list A) (limit : Z) :
  1 <= limit ->
  Z.of_nat (length (slice_from (- limit) l)) <= limit.
Proof.
  intros Hl. rewrite (slice_from_last l limit Hl), length_skipn. lia.
Qed.

(** ** Runs of the client *)

Lemma follows_refl {W : Type} (st : state W) : follows st st [].
Proof. split; [symmetry; apply app_nil_r|reflexivity]. Qed.

Lemma snapshots_app (a b : list event) :
  snapshots (a ++ b) = (snapshots a ++ snapshots b)%list.
Proof. apply flat_map_app. Qed.

Lemma last_cons_default {A : Type} (z : A) (b : list A) (d d' : A) :
  List.last (z :: b) d = List.last (z :: b) d'.
Proof.
  revert z. induction b as [|y b IH]; intros z; [reflexivity|].
  change (List.last (y :: b) d = List.last (y :: b) d'). apply IH.
Qed.

Lemma last_app_default {A : Type} (a b : list A) (d : A) :
  List.last (a ++ b) d = List.last b (List.last a d).
Proof.
  destruct b as [|z b]; [rewrite app_nil_r; reflexivity|].
  induction a as [|x a IH]; [reflexivity|].
  transitivity (List.last (a ++ z :: b) d).
  - simpl. destruct (a ++ z :: b)%list eqn:E; [|reflexivity].
    destruct a; discriminate E.
  - rewrite IH. apply last_cons_default.
Qed.

Lemma follows_trans {W : Type} (st1 st2 st3 : state W) (e1 e2 : list event) :
  follows st1 st2 e1 -> follows st2 st3 e2 -> follows st1 st3 (e1 ++ e2).
Proof.
  intros [Ht1 Hs1] [Ht2 Hs2]. split.
  - rewrite Ht2, Ht1. symmetry. apply app_assoc.
  - rewrite Hs2, Hs1, snapshots_app. symmetry. apply last_app_default.
Qed.





Section Runs.
Context (lib : PyLib) (cfg : Config) {W : Type} (T : Transport W).

Ltac unfold_client :=
  unfold attempt, disconnect, try_except, try_finally, with_server, invoke,
    set_server, set_connected_host, write_self, get_self, bind, ret, raise,
    lift, any_exception;
  cbn [self world trace server email password timeout _connected_host fst snd].

Ltac follows_now :=
  split; cbn [trace self];
  [rewrite <- ?app_assoc; cbn [app]; reflexivity | cbn; reflexivity].

(** What one turn of the loop of [connect] does. *)
Lemma attempt_spec (host : string) (st : state W) :
  exists evs,
    follows st (snd (attempt cfg T host st))
      (EvCall (CallIMAP4_SSL host (DEFAULT_PORT cfg) (timeout (self st))) :: evs) /\
    opened_hosts evs = [] /\
    same_account (self st) (self (snd (attempt cfg T host st))) /\
    match fst (attempt cfg T host st) with
    | Ok LoggedIn =>
        exists h, server (self (snd (attempt cfg T host st))) = Some h /\
                  _connected_host (self (snd (attempt cfg T host st))) = Some host /\
                  In (EvCall (CallLogin h (email (self st)) (password (self st)))) evs
    | Ok (Failed cause) =>
        server (self (snd (attempt cfg T host st))) = None /\
        _connected_host (self (snd (attempt cfg T host st))) = _connected_host (self st) /\
        (is_imap_or_os_error cause = true \/
         cause = Exn MailAuthError (login_failed_msg host))
    | Raise e => is_imap_or_os_error e = false
    end.
Proof.
  unfold_client.
  destruct (IMAP4_SSL T host (DEFAULT_PORT cfg) (timeout (self st)) (world st))
    as [[h|e] w1]; cbn.
  - destruct (login T h (email (self st)) (password (self st)) w1)
      as [[res|e] w2]; cbn.
    + destruct (String.eqb res "OK"); cbn.
      * eexists. split; [follows_now|].
        split; [reflexivity|]. split; [repeat split|].
        exists h. repeat split. simpl. auto.
      * destruct (logout T h w2) as [[u|e] w3]; cbn.
        -- eexists. split; [follows_now|].
           split; [reflexivity|]. split; [repeat split|].
           repeat split. right. reflexivity.
        -- eexists. split; [follows_now|].
           split; [reflexivity|]. split; [repeat split|].
           repeat split. right. reflexivity.
    + destruct (is_imap_or_os_error e) eqn:He; cbn.
      * eexists. split; [follows_now|].
        split; [reflexivity|]. split; [repeat split|].
        repeat split. left. exact He.
      * eexists. split; [follows_now|].
        split; [reflexivity|]. split; [repeat split|]. exact He.
  - destruct (is_imap_or_os_error e) eqn:He; cbn.
    + eexists. split; [follows_now|].
      split; [reflexivity|]. split; [repeat split|].
      repeat split. left. exact He.
    + exists []. split; [follows_now|].
      split; [reflexivity|]. split; [repeat split|]. exact He.
Qed.

Lemma connect_loop_cons (host : string) (rest : list string)
    (le : option exn) (st : state W) :
  connect_loop cfg T (host :: rest) le st =
  match attempt cfg T host st with
  | (Ok LoggedIn, st1) => (Ok Returned, st1)
  | (Ok (Failed cause), st1) => connect_loop cfg T rest (Some cause) st1
  | (Raise e, st1) => (Raise e, st1)
  end.
Proof.
  cbn [connect_loop]. unfold bind at 1.
  destruct (attempt cfg T host st) as [[[|cause]|e] st1]; reflexivity.
Qed.

(** The loop of [connect] logs what it does, keeps the account, and
    starts by opening a connection to the first host. *)
Lemma connect_loop_follows (hosts : list string) (le : option exn) (st : state W) :
  exists evs,
    follows st (snd (connect_loop cfg T hosts le st)) evs /\
    same_account (self st) (self (snd (connect_loop cfg T hosts le st))) /\
    (forall host rest, hosts = host :: rest ->
       exists evs', evs = EvCall (CallIMAP4_SSL host (DEFAULT_PORT cfg)
                                     (timeout (self st))) :: evs').
Proof.
  revert le st. induction hosts as [|host rest IH]; intros le st.
  - exists []. split; [apply follows_refl|]. split; [repeat split|].
    intros ? ? H. discriminate H.
  - rewrite connect_loop_cons.
    destruct (attempt_spec host st) as (evs & Hf & _ & Hacc & _).
    destruct (attempt cfg T host st) as [[[|cause]|e] st1]; cbn [fst snd] in *.
    + exists (EvCall (CallIMAP4_SSL host (DEFAULT_PORT cfg) (timeout (self st))) :: evs).
      split; [exact Hf|]. split; [exact Hacc|].
      intros ? ? H. injection H as <- <-. eauto.
    + destruct (IH (Some cause) st1) as (evs2 & Hf2 & Hacc2 & _).
      eexists. split; [exact (follows_trans _ _ _ _ _ Hf Hf2)|].
      split.
      * destruct Hacc as (? & ? & ?), Hacc2 as (? & ? & ?).
        repeat split; congruence.
      * intros ? ? H. injection H as <- <-. cbn [app]. eauto.
    + exists (EvCall (CallIMAP4_SSL host (DEFAULT_PORT cfg) (timeout (self st))) :: evs).
      split; [exact Hf|]. split; [exact Hacc|].
      intros ? ? H. injection H as <- <-. eauto.
Qed.

(** How the loop of [connect] can end. *)
Lemma connect_loop_result (hosts : list string) (le : option exn) (st : state W) :
  match fst (connect_loop cfg T hosts le st) with
  | Ok Returned =>
      exists h host,
        server (self (snd (connect_loop cfg T hosts le st))) = Some h /\
        _connected_host (self (snd (connect_loop cfg T hosts le st))) = Some host /\
        In host hosts
  | Ok (Exhausted le') =>
      (hosts = [] -> le' = le /\ snd (connect_loop cfg T hosts le st) = st) /\
      (hosts <> [] ->
         server (self (snd (connect_loop cfg T hosts le st))) = None /\
         _connected_host (self (snd (connect_loop cfg T hosts le st)))
           = _connected_host (self st) /\
         exists st_prev cause,
           attempt cfg T (List.last hosts "") st_prev
             = (Ok (Failed cause), snd (connect_loop cfg T hosts le st)) /\
           le' = Some cause /\
           (is_imap_or_os_error cause = true \/
            cause = Exn MailAuthError (login_failed_msg (List.last hosts ""))))
  | Raise e => is_imap_or_os_error e = false
  end.
Proof.
  revert le st. induction hosts as [|host rest IH]; intros le st.
  - cbn. split; [auto|]. intros H. contradiction.
  - rewrite connect_loop_cons.
    pose proof (attempt_spec host st) as (evs & _ & _ & _ & Hres).
    destruct (attempt cfg T host st) as [[[|cause]|e] st1] eqn:Hatt;
      cbn [fst snd] in *.
    + destruct Hres as (h & Hs & Hc & _). exists h, host.
      repeat split; auto. left. reflexivity.
    + specialize (IH (Some cause) st1).
      destruct (connect_loop cfg T rest (Some cause) st1) as [[[|le']|e] st2];
        cbn [fst snd] in *.
      * destruct IH as (h & host' & ? & ? & ?). exists h, host'.
        repeat split; auto. right. assumption.
      * destruct IH as (Hnil & Hcons). split; [intros H; discriminate H|].
        intros _. destruct Hres as (Hs1 & Hc1 & Hcause).
        destruct rest as [|host2 rest2].
        -- destruct (Hnil eq_refl) as (-> & ->).
           repeat split; auto. exists st, cause. repeat split; auto.
        -- destruct (Hcons ltac:(discriminate)) as (Hs2 & Hc2 & sp & c2 & ? & ? & ?).
           split; [exact Hs2|]. split; [congruence|].
           exists sp, c2. repeat split; auto.
      * exact IH.
    + exact Hres.
Qed.


Lemma connect_unfold (st : state W) :
  connect lib cfg T st =
  match _candidate_hosts lib cfg (self st) with
  | Raise e => (Raise e, st)
  | Ok hosts =>
      match connect_loop cfg T hosts None st with
      | (Ok Returned, st1) => (Ok tt, st1)
      | (Ok (Exhausted le), st1) =>
          match _candidate_hosts lib cfg (self st1) with
          | Ok hosts' =>
              (Raise (Exn MailAuthError
                        (connect_failed_msg (email (self st1)) hosts' le)), st1)
          | Raise e => (Raise e, st1)
          end
      | (Raise e, st1) => (Raise e, st1)
      end
  end.
Proof.
  unfold connect, candidate_hosts_m, bind, get_self, lift, ret, raise.
  destruct (_candidate_hosts lib cfg (self st)) as [hosts|e]; [|reflexivity].
  destruct (connect_loop cfg T hosts None st) as [[[|le]|e] st1]; reflexivity.
Qed.

Lemma connect_snd (st : state W) (hosts : list string) :
  _candidate_hosts lib cfg (self st) = Ok hosts ->
  snd (connect lib cfg T st) = snd (connect_loop cfg T hosts None st).
Proof.
  intros Hh. rewrite connect_unfold, Hh.
  destruct (connect_loop cfg T hosts None st) as [[[|le]|e] st1]; try reflexivity.
  destruct (_candidate_hosts lib cfg (self st1)); reflexivity.
Qed.

Lemma connect_exhausted_server_none (st : state W) (hosts : list string)
    (le : option exn) (st1 : state W) :
  _candidate_hosts lib cfg (self st) = Ok hosts ->
  connect_loop cfg T hosts None st = (Ok (Exhausted le), st1) ->
  server (self (snd (connect lib cfg T st))) = None.
Proof.
  intros Hh Hloop.
  destruct (candidate_hosts_total lib cfg (self st)) as (h0 & r0 & Hh0).
  rewrite Hh in Hh0. injection Hh0 as ->.
  rewrite (connect_snd st _ Hh).
  pose proof (connect_loop_result (h0 :: r0) None st) as Hres.
  rewrite Hloop in *. cbn [fst snd] in *.
  destruct Hres as (_ & Hcons).
  destruct (Hcons ltac:(discriminate)) as (Hs & _). exact Hs.
Qed.




(** C10: the candidate hosts are computed for every address, never
    raising: the lookup domain is the lowercased, stripped text after the
    last at-sign, or of the whole address when it has none, and the
    candidates are what the table gives for that domain: the mapped host
    alone, or the two default hosts when the table has no host for it.
    The constructor keeps the address as given, and connect goes straight
    to opening a connection to the first candidate: nothing checks the
    number of at-signs. *)
Theorem candidate_hosts_any_address (c : client) :
  (exists host rest, _candidate_hosts lib cfg c = Ok (host :: rest)) /\
  (forall pre d,
     email c = pre ++ String at_sign d -> str_has at_sign d = false ->
     lookup_domain lib c = Ok (str_lower lib (str_strip lib d))) /\
  (str_has at_sign (email c) = false ->
     lookup_domain lib c = Ok (str_lower lib (str_strip lib (email c)))) /\
  (forall pre d,
     email c = pre ++ String at_sign d -> str_has at_sign d = false ->
     _candidate_hosts lib cfg c =
     match IMAP_SERVERS cfg !! str_lower lib (str_strip lib d) with
     | Some host => if str_truthy host then Ok [host] else Ok fallback_hosts
     | None => Ok fallback_hosts
     end) /\
  (str_has at_sign (email c) = false ->
     _candidate_hosts lib cfg c =
     match IMAP_SERVERS cfg !! str_lower lib (str_strip lib (email c)) with
     | Some host => if str_truthy host then Ok [host] else Ok fallback_hosts
     | None => Ok fallback_hosts
     end) /\
  (forall addr pass tmo, email (__init__ addr pass tmo) = addr) /\
  (forall st : state W,
     exists host rest evs,
       _candidate_hosts lib cfg (self st) = Ok (host :: rest) /\
       trace (snd (connect lib cfg T st))
         = (trace st ++ EvCall (CallIMAP4_SSL host (DEFAULT_PORT cfg)
                                  (timeout (self st))) :: evs)%list).
Proof.
  split; [apply candidate_hosts_total|].
  split.
  { intros pre d He Hd. unfold lookup_domain.
    rewrite He, (index_last_split_after _ _ _ Hd). reflexivity. }
  split.
  { intros Hn. unfold lookup_domain.
    rewrite (str_split_without _ _ Hn). reflexivity. }
  split.
  { intros pre d He Hd. unfold _candidate_hosts, lookup_domain.
    rewrite He, (index_last_split_after _ _ _ Hd). reflexivity. }
  split.
  { intros Hn. unfold _candidate_hosts, lookup_domain.
    rewrite (str_split_without _ _ Hn). reflexivity. }
  split; [reflexivity|].
  intros st.
  destruct (candidate_hosts_total lib cfg (self st)) as (h0 & r0 & Hh).
  destruct (connect_loop_follows (h0 :: r0) None st) as (evs & (Htr & _) & _ & Hfirst).
  destruct (Hfirst _ _ eq_refl) as (evs' & ->).
  exists h0, r0, evs'. split; [exact Hh|].
  rewrite (connect_snd st _ Hh). exact Htr.
Qed.

(** ** disconnect *)

Lemma disconnect_unfold (st : state W) :
  disconnect T st =
  match server (self st) with
  | None => (Ok tt, st)
  | Some h =>
      (Ok tt,
       {| self := cleared (self st);
          world := snd (logout T h (world st));
          trace := (trace st ++
                    [EvCall (CallLogout h);
                     EvSelf {| email := email (self st);
                               password := password (self st);
                               timeout := timeout (self st);
                               server := None;
                               _connected_host := _connected_host (self st) |};
                     EvSelf (cleared (self st))])%list |})
  end.
Proof.
  unfold_client. destruct (server (self st)) as [h|] eqn:Hs; [|reflexivity].
  cbn. rewrite Hs.
  destruct (logout T h (world st)) as [[[]|e] w1]; cbn;
    rewrite <- ?app_assoc; reflexivity.
Qed.

Lemma attempt_agree (host : string) (st1 st2 : state W) :
  agree st1 st2 ->
  fst (attempt cfg T host st1) = fst (attempt cfg T host st2) /\
  agree (snd (attempt cfg T host st1)) (snd (attempt cfg T host st2)).
Proof.
  destruct st1 as [[e1 p1 t1 s1 c1] w1 tr1], st2 as [[e2 p2 t2 s2 c2] w2 tr2].
  unfold agree. cbn. intros (-> & -> & -> & -> & ->).
  unfold_client.
  destruct (IMAP4_SSL T host (DEFAULT_PORT cfg) t2 w2) as [[h|e] w3]; cbn.
  - destruct (login T h e2 p2 w3) as [[res|e] w4]; cbn.
    + destruct (String.eqb res "OK"); cbn; [repeat split|].
      destruct (logout T h w4) as [[u|e] w5]; cbn; repeat split.
    + destruct (is_imap_or_os_error e); cbn; repeat split.
  - destruct (is_imap_or_os_error e); cbn; repeat split.
Qed.

Lemma connect_loop_agree (hosts : list string) (le : option exn)
    (st1 st2 : state W) :
  agree st1 st2 ->
  fst (connect_loop cfg T hosts le st1) = fst (connect_loop cfg T hosts le st2) /\
  agree (snd (connect_loop cfg T hosts le st1))
        (snd (connect_loop cfg T hosts le st2)) /\
  (fst (connect_loop cfg T hosts le st1) = Ok Returned ->
   _connected_host (self (snd (connect_loop cfg T hosts le st1)))
   = _connected_host (self (snd (connect_loop cfg T hosts le st2)))).
Proof.
  revert le st1 st2. induction hosts as [|host rest IH]; intros le st1 st2 Hag.
  - cbn. split; [reflexivity|]. split; [exact Hag|]. intros H; discriminate H.
  - rewrite !connect_loop_cons.
    destruct (attempt_agree host st1 st2 Hag) as (Hfst & Hag').
    pose proof (attempt_spec host st1) as (? & _ & _ & _ & Hr1).
    pose proof (attempt_spec host st2) as (? & _ & _ & _ & Hr2).
    destruct (attempt cfg T host st1) as [[[|c1]|e1] sa];
      destruct (attempt cfg T host st2) as [[[|c2]|e2] sb];
      cbn [fst snd] in *; try discriminate.
    + split; [reflexivity|]. split; [exact Hag'|]. intros _.
      destruct Hr1 as (? & _ & -> & _), Hr2 as (? & _ & -> & _). reflexivity.
    + injection Hfst as <-. apply IH. exact Hag'.
    + injection Hfst as <-. split; [reflexivity|]. split; [exact Hag'|].
      intros H; discriminate H.
Qed.

Lemma candidate_hosts_agree (st1 st2 : state W) :
  agree st1 st2 ->
  _candidate_hosts lib cfg (self st1) = _candidate_hosts lib cfg (self st2).
Proof.
  intros (He & _). unfold _candidate_hosts, lookup_domain. rewrite He. reflexivity.
Qed.

(** [connect] reads neither [self.server] nor [self._connected_host]. *)
Lemma connect_agree (st1 st2 : state W) :
  agree st1 st2 ->
  fst (connect lib cfg T st1) = fst (connect lib cfg T st2) /\
  agree (snd (connect lib cfg T st1)) (snd (connect lib cfg T st2)) /\
  (fst (connect lib cfg T st1) = Ok tt ->
   self (snd (connect lib cfg T st1)) = self (snd (connect lib cfg T st2))).
Proof.
  intros Hag. rewrite !connect_unfold.
  rewrite <- (candidate_hosts_agree _ _ Hag).
  destruct (candidate_hosts_total lib cfg (self st1)) as (h0 & r0 & ->).
  destruct (connect_loop_agree (h0 :: r0) None st1 st2 Hag) as (Hfst & Hag' & Hhost).
  destruct (connect_loop cfg T (h0 :: r0) None st1) as [[[|l1]|e1] sa];
    destruct (connect_loop cfg T (h0 :: r0) None st2) as [[[|l2]|e2] sb];
    cbn [fst snd] in *; try discriminate.
  - split; [reflexivity|]. split; [exact Hag'|]. intros _.
    specialize (Hhost eq_refl).
    destruct sa as [[? ? ? ? ?] ? ?], sb as [[? ? ? ? ?] ? ?].
    unfold agree in Hag'. cbn in *.
    destruct Hag' as (-> & -> & -> & -> & _). rewrite Hhost. reflexivity.
  - injection Hfst as <-.
    rewrite <- (candidate_hosts_agree _ _ Hag').
    destruct (candidate_hosts_total lib cfg (self sa)) as (h1 & r1 & ->).
    destruct Hag' as (He & Hrest). rewrite He. cbn [fst snd].
    split; [reflexivity|]. split; [exact (conj He Hrest)|].
    intros H; discriminate H.
  - injection Hfst as <-. split; [reflexivity|]. split; [exact Hag'|].
    intros H; discriminate H.
Qed.

Lemma disconnect_server_none (st : state W) :
  server (self (snd (disconnect T st))) = None.
Proof.
  rewrite disconnect_unfold.
  destruct (server (self st)) eqn:Hs; [reflexivity|exact Hs].
Qed.

(** C9 (amended): disconnect never raises, whatever logout does, also
    when no handle is bound and when called again.  It always leaves no
    transport handle bound.  It clears the host binding whenever a handle
    was bound at the call, and otherwise changes nothing.  A connect after
    it behaves as on a fresh instance of the same account: the same
    result, the same effect on the world, the same handle bound, and on
    success the same instance. *)
Theorem disconnect_never_raises (st : state W) :
  fst (disconnect T st) = Ok tt /\
  server (self (snd (disconnect T st))) = None /\
  (server (self st) <> None ->
     _connected_host (self (snd (disconnect T st))) = None) /\
  (server (self st) = None -> snd (disconnect T st) = st) /\
  disconnect T (snd (disconnect T st)) = (Ok tt, snd (disconnect T st)) /\
  (forall tr,
     let after := snd (disconnect T st) in
     let fresh := {| self := __init__ (email (self st)) (password (self st))
                                      (timeout (self st));
                     world := world after; trace := tr |} in
     fst (connect lib cfg T after) = fst (connect lib cfg T fresh) /\
     world (snd (connect lib cfg T after)) = world (snd (connect lib cfg T fresh)) /\
     server (self (snd (connect lib cfg T after)))
       = server (self (snd (connect lib cfg T fresh))) /\
     (fst (connect lib cfg T after) = Ok tt ->
        self (snd (connect lib cfg T after)) = self (snd (connect lib cfg T fresh)))).
Proof.
  pose proof (disconnect_server_none st) as Hnone.
  assert (Hacc : same_account (self st) (self (snd (disconnect T st)))).
  { rewrite disconnect_unfold. destruct (server (self st)); repeat split. }
  split; [rewrite disconnect_unfold; destruct (server (self st)); reflexivity|].
  split; [exact Hnone|].
  split.
  { intros Hs. rewrite disconnect_unfold.
    destruct (server (self st)); [reflexivity|contradiction]. }
  split.
  { intros Hs. rewrite disconnect_unfold, Hs. reflexivity. }
  split.
  { rewrite (disconnect_unfold (snd (disconnect T st))), Hnone. reflexivity. }
  intros tr after fresh.
  assert (Hag : agree after fresh).
  { destruct Hacc as (He & Hp & Ht). unfold agree, after, fresh. cbn.
    repeat split; auto. }
  destruct (connect_agree after fresh Hag) as (Hfst & (_ & _ & _ & Hsrv & Hw) & Hself).
  repeat split; auto.
Qed.

(** ** get_messages *)

Lemma fetch_loop_cons (items msg_id : string) (rest : list string)
    (messages : list MessageRecord) (st : state W) :
  fetch_loop lib T items (msg_id :: rest) messages st =
  match server (self st) with
  | None => (Raise (Exn AttributeError "'NoneType' object has no attribute"), st)
  | Some h =>
      match fetch T h msg_id items (world st) with
      | (Raise e, w) => (Raise e, after_fetch st h msg_id items w)
      | (Ok (typ, data), w) =>
          match data with
          | it :: _ =>
              if negb (String.eqb typ "OK") || is_none it
              then fetch_loop lib T items rest messages (after_fetch st h msg_id items w)
              else
                match raw_of_item it with
                | Raise e => (Raise e, after_fetch st h msg_id items w)
                | Ok raw_email =>
                    match decode_message lib raw_email with
                    | Raise e => (Raise e, after_fetch st h msg_id items w)
                    | Ok record =>
                        fetch_loop lib T items rest (messages ++ [record])%list
                                   (after_fetch st h msg_id items w)
                    end
                end
          | [] => fetch_loop lib T items rest messages (after_fetch st h msg_id items w)
          end
      end
  end.
Proof.
  cbn [fetch_loop]. unfold with_server. unfold bind, get_self, raise, invoke, lift.
  cbv beta iota.
  destruct (server (self st)) as [h|]; [|reflexivity].
  cbv beta iota.
  destruct (fetch T h msg_id items (world st)) as [[[typ data]|e] w];
    [|reflexivity].
  cbv beta iota. unfold after_fetch.
  destruct data as [|it data']; cbn [list_truthy first_is_none negb orb index_first].
  { rewrite orb_true_r. reflexivity. }
  rewrite orb_false_r.
  destruct (negb (String.eqb typ "OK") || is_none it); [reflexivity|].
  destruct (raw_of_item it) as [raw|e]; [|reflexivity].
  destruct (decode_message lib raw) as [record|e]; reflexivity.
Qed.

(** The fetch loop only issues fetches, all in the given mode, and never
    writes an attribute; when it returns, it fetched every identifier in
    order and appended at most one record for each. *)
Lemma fetch_loop_spec (items : string) (msg_ids : list string)
    (messages : list MessageRecord) (st : state W) :
  exists evs,
    follows st (snd (fetch_loop lib T items msg_ids messages st)) evs /\
    self (snd (fetch_loop lib T items msg_ids messages st)) = self st /\
    Forall (fun ev => exists h msg_id, ev = EvCall (CallFetch h msg_id items)) evs /\
    (forall out, fst (fetch_loop lib T items msg_ids messages st) = Ok out ->
       (exists recs, out = (messages ++ recs)%list /\
                     (length recs <= length msg_ids)%nat) /\
       (forall h, server (self st) = Some h ->
          evs = map (fun msg_id => EvCall (CallFetch h msg_id items)) msg_ids)).
Proof.
  revert messages st. induction msg_ids as [|msg_id rest IH]; intros messages st.
  - exists []. cbn. split; [apply follows_refl|]. split; [reflexivity|].
    split; [constructor|]. intros out H. injection H as <-.
    split; [exists []; split; [symmetry; apply app_nil_r|reflexivity]|reflexivity].
  - rewrite fetch_loop_cons.
    destruct (server (self st)) as [h|] eqn:Hsrv.
    2:{ exists []. cbn. split; [apply follows_refl|]. split; [reflexivity|].
        split; [constructor|]. intros out H. discriminate H. }
    assert (Hstep : forall w, follows st (after_fetch st h msg_id items w)
                                [EvCall (CallFetch h msg_id items)])
      by (intros w; split; reflexivity).
    assert (Hstop : forall w (e : exn),
      exists evs,
        follows st (after_fetch st h msg_id items w) evs /\
        self (after_fetch st h msg_id items w) = self st /\
        Forall (fun ev => exists h msg_id, ev = EvCall (CallFetch h msg_id items)) evs /\
        (forall out, @Raise (list MessageRecord) e = Ok out ->
           (exists recs, out = (messages ++ recs)%list /\
                         (length recs <= length (msg_id :: rest))%nat) /\
           (forall h0, Some h = Some h0 ->
              evs = map (fun msg_id => EvCall (CallFetch h0 msg_id items))
                        (msg_id :: rest)))).
    { intros w e. exists [EvCall (CallFetch h msg_id items)].
      split; [apply Hstep|]. split; [reflexivity|].
      split; [constructor; [eauto|constructor]|]. intros out H. discriminate H. }
    assert (Hgo : forall w msgs' (extra : list MessageRecord),
      msgs' = (messages ++ extra)%list -> (length extra <= 1)%nat ->
      exists evs,
        follows st (snd (fetch_loop lib T items rest msgs'
                           (after_fetch st h msg_id items w))) evs /\
        self (snd (fetch_loop lib T items rest msgs'
                     (after_fetch st h msg_id items w))) = self st /\
        Forall (fun ev => exists h msg_id, ev = EvCall (CallFetch h msg_id items)) evs /\
        (forall out, fst (fetch_loop lib T items rest msgs'
                            (after_fetch st h msg_id items w)) = Ok out ->
           (exists recs, out = (messages ++ recs)%list /\
                         (length recs <= length (msg_id :: rest))%nat) /\
           (forall h0, Some h = Some h0 ->
              evs = map (fun msg_id => EvCall (CallFetch h0 msg_id items))
                        (msg_id :: rest)))).
    { intros w msgs' extra -> Hlen.
      destruct (IH (messages ++ extra)%list (after_fetch st h msg_id items w))
        as (evs & Hf & Hself & Hall & Hout).
      exists ([EvCall (CallFetch h msg_id items)] ++ evs)%list.
      split; [exact (follows_trans _ _ _ _ _ (Hstep w) Hf)|].
      split; [exact Hself|].
      split; [constructor; [eauto|exact Hall]|].
      intros out Hok. destruct (Hout out Hok) as ((recs & -> & Hl) & Hevs).
      split.
      - exists (extra ++ recs)%list. split; [symmetry; apply app_assoc|].
        rewrite length_app. cbn [length]. lia.
      - intros h0 Hh0. injection Hh0 as <-.
        rewrite (Hevs h Hsrv). reflexivity. }
    destruct (fetch T h msg_id items (world st)) as [[[typ data]|e] w];
      [|apply Hstop].
    destruct data as [|it data'].
    { apply (Hgo w messages []); [symmetry; apply app_nil_r|cbn; lia]. }
    destruct (negb (String.eqb typ "OK") || is_none it).
    { apply (Hgo w messages []); [symmetry; apply app_nil_r|cbn; lia]. }
    destruct (raw_of_item it) as [raw|e]; [|apply Hstop].
    destruct (decode_message lib raw) as [record|e]; [|apply Hstop].
    apply (Hgo w _ [record]); [reflexivity|cbn; lia].
Qed.

Section GetMessages.
Context (mailbox criteria : string) (limit : Z) (mark_seen : bool).

Ltac step := cbv beta iota; cbn [self world trace].

Lemma get_messages_unfold (st : state W) :
  get_messages lib T mailbox criteria limit mark_seen st =
  match server (self st) with
  | None => (Raise (Exn MailAuthError no_connection_msg), st)
  | Some h =>
      match select T h mailbox true (world st) with
      | (Raise e, w) => (Raise e, after_select mailbox st h w)
      | (Ok typ, w) =>
          if negb (String.eqb typ "OK")
          then (Raise (Exn MailAuthError (select_failed_msg mailbox)),
                after_select mailbox st h w)
          else
            match search T h criteria w with
            | (Raise e, w2) => (Raise e, after_search mailbox criteria st h w2)
            | (Ok (typ2, data), w2) =>
                if negb (String.eqb typ2 "OK")
                then (Raise (Exn MailAuthError search_failed_msg),
                      after_search mailbox criteria st h w2)
                else
                  match index_first data with
                  | Raise e => (Raise e, after_search mailbox criteria st h w2)
                  | Ok d0 =>
                      match bytes_split (match d0 with Some b => b | None => "" end) with
                      | [] => (Ok [], after_search mailbox criteria st h w2)
                      | i :: ids =>
                          match fetch_loop lib T (fetch_mode mark_seen)
                                  (slice_from (- limit) (i :: ids)) []
                                  (after_search mailbox criteria st h w2) with
                          | (Ok messages, st3) => (Ok (rev messages), st3)
                          | (Raise e, st3) => (Raise e, st3)
                          end
                      end
                  end
            end
      end
  end.
Proof.
  unfold get_messages, after_select, after_search, fetch_mode, with_server.
  unfold bind, get_self, invoke, raise, lift, ret. step.
  destruct (server (self st)) as [h|] eqn:Hsrv; [|reflexivity].
  step. rewrite Hsrv. step.
  destruct (select T h mailbox true (world st)) as [[typ|e] w]; [|reflexivity].
  step.
  destruct (negb (String.eqb typ "OK")); [reflexivity|]. step. rewrite Hsrv. step.
  destruct (search T h criteria w) as [[[typ2 data]|e] w2]; [|reflexivity].
  step.
  destruct (negb (String.eqb typ2 "OK")); [reflexivity|]. step.
  destruct (index_first data) as [d0|e]; [|reflexivity]. step.
  destruct (bytes_split (match d0 with Some b => b | None => "" end))
    as [|i ids]; reflexivity.
Qed.

Lemma fetch_events_respect (evs : list event) :
  Forall (fun ev => exists h msg_id, ev = EvCall (CallFetch h msg_id (fetch_mode mark_seen))) evs ->
  Forall (respects_seen_flag mark_seen) evs.
Proof.
  intros H. eapply List.Forall_impl; [|exact H].
  intros ev (h & i & ->). reflexivity.
Qed.

(** C3: every transport call of get_messages is a select, a search or a
    fetch; the select is read-only (whatever mark_seen is), each fetch
    asks for BODY.PEEK[] when mark_seen is false and for RFC822 when it is
    true, and no attribute is written.  With a handle bound, the first
    call selects the given mailbox read-only. *)
Theorem get_messages_respects_seen_flag (st : state W) :
  exists evs,
    trace (snd (get_messages lib T mailbox criteria limit mark_seen st))
      = (trace st ++ evs)%list /\
    self (snd (get_messages lib T mailbox criteria limit mark_seen st)) = self st /\
    Forall (respects_seen_flag mark_seen) evs /\
    (forall h, server (self st) = Some h ->
       exists evs', evs = EvCall (CallSelect h mailbox true) :: evs').
Proof.
  rewrite get_messages_unfold.
  destruct (server (self st)) as [h|] eqn:Hsrv.
  2:{ exists []. split; [symmetry; apply app_nil_r|]. split; [reflexivity|].
      split; [constructor|]. intros h H; discriminate H. }
  assert (Hsel : forall w (r : result (list MessageRecord)),
    exists evs,
      trace (snd (r, after_select mailbox st h w)) = (trace st ++ evs)%list /\
      self (snd (r, after_select mailbox st h w)) = self st /\
      Forall (respects_seen_flag mark_seen) evs /\
      (forall h0, Some h = Some h0 ->
         exists evs', evs = EvCall (CallSelect h0 mailbox true) :: evs')).
  { intros w r. exists [EvCall (CallSelect h mailbox true)].
    split; [reflexivity|]. split; [reflexivity|].
    split; [repeat constructor|]. intros h0 H; injection H as <-. eauto. }
  assert (Hsearch : forall w (r : result (list MessageRecord)),
    exists evs,
      trace (snd (r, after_search mailbox criteria st h w)) = (trace st ++ evs)%list /\
      self (snd (r, after_search mailbox criteria st h w)) = self st /\
      Forall (respects_seen_flag mark_seen) evs /\
      (forall h0, Some h = Some h0 ->
         exists evs', evs = EvCall (CallSelect h0 mailbox true) :: evs')).
  { intros w r.
    exists [EvCall (CallSelect h mailbox true); EvCall (CallSearch h criteria)].
    split; [cbn; rewrite <- app_assoc; reflexivity|]. split; [reflexivity|].
    split; [repeat constructor|]. intros h0 H; injection H as <-. eauto. }
  destruct (select T h mailbox true (world st)) as [[typ|e] w]; [|apply Hsel].
  destruct (negb (String.eqb typ "OK")); [apply Hsel|].
  destruct (search T h criteria w) as [[[typ2 data]|e] w2]; [|apply Hsearch].
  destruct (negb (String.eqb typ2 "OK")); [apply Hsearch|].
  destruct (index_first data) as [d0|e]; [|apply Hsearch].
  destruct (bytes_split (match d0 with Some b => b | None => "" end))
    as [|i ids]; [apply Hsearch|].
  destruct (fetch_loop_spec (fetch_mode mark_seen) (slice_from (- limit) (i :: ids)) []
              (after_search mailbox criteria st h w2)) as (evs & (Htr & _) & Hself & Hall & _).
  exists ([EvCall (CallSelect h mailbox true); EvCall (CallSearch h criteria)]
            ++ evs)%list.
  assert (Htr' : trace (snd (fetch_loop lib T (fetch_mode mark_seen)
                               (slice_from (- limit) (i :: ids)) []
                               (after_search mailbox criteria st h w2)))
                 = (trace st ++ [EvCall (CallSelect h mailbox true);
                                 EvCall (CallSearch h criteria)] ++ evs)%list).
  { rewrite Htr. cbn [trace after_search]. rewrite <- !app_assoc. reflexivity. }
  destruct (fetch_loop lib T (fetch_mode mark_seen) (slice_from (- limit) (i :: ids)) []
              (after_search mailbox criteria st h w2)) as [[messages|e] st3]; cbn [fst snd] in *.
  - split; [exact Htr'|]. split; [exact Hself|].
    split; [repeat constructor; apply fetch_events_respect; exact Hall|].
    intros h0 H; injection H as <-. eauto.
  - split; [exact Htr'|]. split; [exact Hself|].
    split; [repeat constructor; apply fetch_events_respect; exact Hall|].
    intros h0 H; injection H as <-. eauto.
Qed.

(** C2 (amended): with no handle bound, get_messages raises MailAuthError
    with the no-active-connection message and leaves the state as it was:
    no call reaches the transport.  No handle is bound on a new instance,
    after any disconnect, and after a connect that ran out of
    candidates. *)
Theorem get_messages_without_session (st : state W) :
  (server (self st) = None ->
     get_messages lib T mailbox criteria limit mark_seen st
       = (Raise (Exn MailAuthError "Нет активного соединения IMAP."), st)) /\
  (forall addr pass tmo, server (__init__ addr pass tmo) = None) /\
  server (self (snd (disconnect T st))) = None /\
  (forall hosts le st1,
     _candidate_hosts lib cfg (self st) = Ok hosts ->
     connect_loop cfg T hosts None st = (Ok (Exhausted le), st1) ->
     server (self (snd (connect lib cfg T st))) = None).
Proof.
  split.
  { intros Hs. rewrite get_messages_unfold, Hs. reflexivity. }
  split; [reflexivity|].
  split; [apply disconnect_server_none|].
  intros hosts le st1 Hh Hloop.
  exact (connect_exhausted_server_none st _ _ _ Hh Hloop).
Qed.

(** For a limit of at least one, a batch that is returned has at most
    [limit] records. *)
Lemma get_messages_bounded (st : state W) (batch : list MessageRecord) :
  1 <= limit ->
  fst (get_messages lib T mailbox criteria limit mark_seen st) = Ok batch ->
  Z.of_nat (length batch) <= limit.
Proof.
  intros Hl. rewrite get_messages_unfold.
  destruct (server (self st)) as [h|]; [|intros H; discriminate H].
  destruct (select T h mailbox true (world st)) as [[typ|e] w];
    [|intros H; discriminate H].
  destruct (negb (String.eqb typ "OK")); [intros H; discriminate H|].
  destruct (search T h criteria w) as [[[typ2 data]|e] w2];
    [|intros H; discriminate H].
  destruct (negb (String.eqb typ2 "OK")); [intros H; discriminate H|].
  destruct (index_first data) as [d0|e]; [|intros H; discriminate H].
  destruct (bytes_split (match d0 with Some b => b | None => "" end))
    as [|i ids]; [intros H; injection H as <-; cbn; lia|].
  destruct (fetch_loop_spec (fetch_mode mark_seen) (slice_from (- limit) (i :: ids)) []
              (after_search mailbox criteria st h w2)) as (evs & _ & _ & _ & Hout).
  destruct (fetch_loop lib T (fetch_mode mark_seen) (slice_from (- limit) (i :: ids)) []
              (after_search mailbox criteria st h w2)) as [[messages|e] st3]; cbn [fst snd] in *;
    [|intros H; discriminate H].
  intros H; injection H as <-.
  destruct (Hout messages eq_refl) as ((recs & -> & Hlen) & _).
  pose proof (slice_from_length (i :: ids) limit Hl).
  rewrite length_rev. cbn [app]. lia.
Qed.

(** For a limit L with 1 <= L <= N on a search that found N identifiers,
    a run that returns has selected, searched, and then fetched exactly
    the last L identifiers, in ascending order. *)
Lemma get_messages_fetches_last (st : state W) (h : handle) (w w2 : W)
    (d0 : option string) (more : list (option string))
    (batch : list MessageRecord) (st' : state W) :
  let ids := bytes_split (match d0 with Some b => b | None => "" end) in
  server (self st) = Some h ->
  select T h mailbox true (world st) = (Ok "OK", w) ->
  search T h criteria w = (Ok ("OK", d0 :: more), w2) ->
  1 <= limit <= Z.of_nat (length ids) ->
  get_messages lib T mailbox criteria limit mark_seen st = (Ok batch, st') ->
  trace st' = (trace st
               ++ [EvCall (CallSelect h mailbox true); EvCall (CallSearch h criteria)]
               ++ map (fun i => EvCall (CallFetch h i (fetch_mode mark_seen)))
                      (skipn (length ids - Z.to_nat limit) ids))%list.
Proof.
  intros ids Hsrv Hsel Hsch Hl. rewrite get_messages_unfold, Hsrv, Hsel.
  cbn [String.eqb Ascii.eqb Bool.eqb negb]. rewrite Hsch.
  cbn [String.eqb Ascii.eqb Bool.eqb negb index_first]. fold ids.
  destruct ids as [|i ids'] eqn:Hids; [cbn in Hl; lia|].
  rewrite (slice_from_last (i :: ids') limit) by lia.
  destruct (fetch_loop_spec (fetch_mode mark_seen)
              (skipn (length (i :: ids') - Z.to_nat limit) (i :: ids')) []
              (after_search mailbox criteria st h w2)) as (evs & (Htr & _) & _ & _ & Hout).
  destruct (fetch_loop lib T (fetch_mode mark_seen)
              (skipn (length (i :: ids') - Z.to_nat limit) (i :: ids')) []
              (after_search mailbox criteria st h w2)) as [[messages|e] st3]; cbn [fst snd] in *;
    [|intros H; discriminate H].
  intros H; injection H as <- <-.
  destruct (Hout messages eq_refl) as (_ & Hevs).
  rewrite Htr, (Hevs h Hsrv). cbn [trace after_search].
  rewrite <- !app_assoc. reflexivity.
Qed.

(** With limit 0 a run that returns has fetched every identifier the
    search found: [msg_ids[-0:]] keeps them all. *)
Lemma get_messages_limit_zero_fetches_all (st : state W) (h : handle) (w w2 : W)
    (d0 : option string) (more : list (option string))
    (batch : list MessageRecord) (st' : state W) :
  let ids := bytes_split (match d0 with Some b => b | None => "" end) in
  limit = 0 ->
  server (self st) = Some h ->
  select T h mailbox true (world st) = (Ok "OK", w) ->
  search T h criteria w = (Ok ("OK", d0 :: more), w2) ->
  get_messages lib T mailbox criteria limit mark_seen st = (Ok batch, st') ->
  trace st' = (trace st
               ++ [EvCall (CallSelect h mailbox true); EvCall (CallSearch h criteria)]
               ++ map (fun i => EvCall (CallFetch h i (fetch_mode mark_seen))) ids)%list.
Proof.
  intros ids Hz Hsrv Hsel Hsch. rewrite get_messages_unfold, Hsrv, Hsel.
  cbn [String.eqb Ascii.eqb Bool.eqb negb]. rewrite Hsch.
  cbn [String.eqb Ascii.eqb Bool.eqb negb index_first]. fold ids.
  destruct ids as [|i ids'] eqn:Hids.
  { intros H. injection H as _ <-. cbn [map trace after_search].
    rewrite <- !app_assoc. reflexivity. }
  rewrite Hz, slice_from_zero.
  destruct (fetch_loop_spec (fetch_mode mark_seen) (i :: ids') []
              (after_search mailbox criteria st h w2))
    as (evs & (Htr & _) & _ & _ & Hout).
  destruct (fetch_loop lib T (fetch_mode mark_seen) (i :: ids') []
              (after_search mailbox criteria st h w2)) as [[messages|e] st3];
    cbn [fst snd] in *; [|intros H; discriminate H].
  intros H; injection H as <- <-.
  destruct (Hout messages eq_refl) as (_ & Hevs).
  rewrite Htr, (Hevs h Hsrv). cbn [trace after_search].
  rewrite <- !app_assoc. reflexivity.
Qed.

End GetMessages.

End Runs.

(** ** The defects of get_messages *)

(** C1: with limit 0 the slice [msg_ids[-0:]] is the whole search result,
    so on a mailbox of three messages get_messages fetches all three and
    returns three records, newest first, where a batch of at most zero
    was asked for. *)
Theorem get_messages_limit_zero_returns_all :
  exists batch st',
    get_messages Demo.demo_lib Demo.demo_transport "INBOX" "ALL" 0 false
                 Demo.established = (Ok batch, st') /\
    map subject batch = ["3"; "2"; "1"] /\
    length batch = 3%nat /\
    ~ (Z.of_nat (length batch) <= 0) /\
    trace st' = (trace Demo.established
                 ++ [EvCall (CallSelect 1%nat "INBOX" true);
                     EvCall (CallSearch 1%nat "ALL");
                     EvCall (CallFetch 1%nat "1" "(BODY.PEEK[])");
                     EvCall (CallFetch 1%nat "2" "(BODY.PEEK[])");
                     EvCall (CallFetch 1%nat "3" "(BODY.PEEK[])")])%list.
Proof.
  eexists. eexists. split; [vm_compute; reflexivity|].
  split; [reflexivity|]. split; [reflexivity|]. split; [cbn; lia|].
  vm_compute. reflexivity.
Qed.

(** A one-part message that declares an unknown charset makes
    [_extract_bodies] raise LookupError, and the whole batch is lost,
    although the other two messages decode. *)
Lemma get_messages_unknown_charset_aborts :
  fst (get_messages Demo.demo_lib Demo.demo_transport_klingon "INBOX" "ALL" 3 false
                    Demo.established)
  = Raise (Exn LookupError "unknown encoding: klingon").
Proof. vm_compute. reflexivity. Qed.

(** The multipart branch of [_extract_bodies] recovers from the same
    charset by decoding as utf-8. *)
Lemma extract_bodies_multipart_recovers :
  _extract_bodies Demo.demo_lib
    (Multipart [] "multipart/mixed" None
       [Single [] "text/plain" (Some "klingon") "nuqneH"])
  = Ok ("nuqneH", "").
Proof. vm_compute. reflexivity. Qed.

(** ** The properties at concrete runs *)

Lemma get_messages_without_session_witness :
  get_messages Demo.demo_lib Demo.demo_transport "INBOX" "ALL" 50 false
               (Demo.fresh "a@gmail.com" 0)
  = (Raise (Exn MailAuthError "Нет активного соединения IMAP."),
     Demo.fresh "a@gmail.com" 0)
  /\ server (self (snd (connect Demo.demo_lib Demo.demo_cfg Demo.demo_transport
                           (Demo.fresh "a@example.org" 1)))) = None.
Proof.
  destruct (get_messages_without_session Demo.demo_lib Demo.demo_cfg
              Demo.demo_transport "INBOX" "ALL" 50 false
              (Demo.fresh "a@gmail.com" 0)) as (Hraise & _).
  destruct (get_messages_without_session Demo.demo_lib Demo.demo_cfg
              Demo.demo_transport "INBOX" "ALL" 50 false
              (Demo.fresh "a@example.org" 1)) as (_ & _ & _ & Hconn).
  split.
  - apply Hraise. reflexivity.
  - apply (Hconn fallback_hosts
             (Some (Exn MailAuthError (login_failed_msg "imap.notletters.com")))
             (snd (connect_loop Demo.demo_cfg Demo.demo_transport fallback_hosts None
                     (Demo.fresh "a@example.org" 1)))).
    + vm_compute; reflexivity.
    + vm_compute; reflexivity.
Defined.

(** C2, as the specification words it, fails after a connect cut short
    by an exception that is neither IMAP4.error nor OSError: login raised
    it, no except clause of connect took it, and the handle of the
    connection stays bound.  No connect has succeeded, yet get_messages
    passes its guard and goes to the server: it selects the mailbox,
    searches and fetches. *)
Lemma get_messages_after_aborted_connect_counterexample :
  fst (connect Demo.demo_lib Demo.demo_cfg DemoWeb.aborting (Demo.fresh "a@gmail.com" 0))
    = Raise (Exn OtherException "'ascii' codec can't encode character") /\
  server (self DemoWeb.aborted) = Some 1%nat /\
  fst (get_messages Demo.demo_lib DemoWeb.aborting "INBOX" "ALL" 50 false DemoWeb.aborted)
    <> Raise (Exn MailAuthError "Нет активного соединения IMAP.") /\
  trace (snd (get_messages Demo.demo_lib DemoWeb.aborting "INBOX" "ALL" 50 false
                DemoWeb.aborted))
    = (trace DemoWeb.aborted
       ++ [EvCall (CallSelect 1%nat "INBOX" true); EvCall (CallSearch 1%nat "ALL");
           EvCall (CallFetch 1%nat "1" "(BODY.PEEK[])")])%list.
Proof.
  split; [vm_compute; reflexivity|]. split; [vm_compute; reflexivity|].
  split; [vm_compute; discriminate|]. vm_compute; reflexivity.
Qed.

Lemma get_messages_respects_seen_flag_witness :
  exists evs,
    trace (snd (get_messages Demo.demo_lib Demo.demo_transport "INBOX" "ALL" 2 false
                  Demo.established))
    = (trace Demo.established ++ EvCall (CallSelect 1%nat "INBOX" true) :: evs)%list.
Proof.
  destruct (get_messages_respects_seen_flag Demo.demo_lib Demo.demo_transport
              "INBOX" "ALL" 2 false Demo.established)
    as (evs & Htr & _ & _ & Hfirst).
  destruct (Hfirst 1%nat) as (evs' & Hevs).
  - vm_compute; reflexivity.
  - exists evs'. rewrite Htr, Hevs. reflexivity.
Defined.



(** C9, as the specification words it, fails after a connect that
    succeeded followed by one that was rejected: no handle is bound, the
    host of the first session is still recorded, and disconnect, finding
    no handle, leaves it there. *)
Lemma disconnect_keeps_stale_host_counterexample :
  server (self Demo.reconnect_failed) = None /\
  fst (disconnect Demo.demo_transport Demo.reconnect_failed) = Ok tt /\
  _connected_host (self (snd (disconnect Demo.demo_transport Demo.reconnect_failed)))
    = Some "imap.gmail.com" /\
  _connected_host (self (snd (disconnect Demo.demo_transport Demo.reconnect_failed)))
    <> None.
Proof.
  split; [vm_compute; reflexivity|]. split; [vm_compute; reflexivity|].
  split; [vm_compute; reflexivity|]. vm_compute. discriminate.
Qed.

Lemma disconnect_never_raises_witness :
  _connected_host (self (snd (disconnect Demo.demo_transport Demo.established))) = None
  /\ snd (disconnect Demo.demo_transport (Demo.fresh "a@gmail.com" 0))
     = Demo.fresh "a@gmail.com" 0
  /\ self (snd (connect Demo.demo_lib Demo.demo_cfg Demo.demo_transport
                  (snd (disconnect Demo.demo_transport (Demo.fresh "a@gmail.com" 0)))))
     = self Demo.established.
Proof.
  split; [|split].
  - apply (disconnect_never_raises Demo.demo_lib Demo.demo_cfg Demo.demo_transport
             Demo.established).
    vm_compute. discriminate.
  - apply (disconnect_never_raises Demo.demo_lib Demo.demo_cfg Demo.demo_transport
             (Demo.fresh "a@gmail.com" 0)).
    reflexivity.
  - destruct (disconnect_never_raises Demo.demo_lib Demo.demo_cfg Demo.demo_transport
                (Demo.fresh "a@gmail.com" 0)) as (_ & _ & _ & _ & _ & Hconn).
    destruct (Hconn []) as (_ & _ & _ & Hself).
    rewrite Hself; vm_compute; reflexivity.
Defined.

Lemma candidate_hosts_any_address_witness :
  lookup_domain Demo.demo_lib (__init__ "a@b@GMail.com " "x" 30) = Ok "gmail.com"
  /\ lookup_domain Demo.demo_lib (__init__ " Nobody" "x" 30) = Ok "nobody"
  /\ _candidate_hosts Demo.demo_lib Demo.demo_cfg (__init__ "a@b@GMail.com " "x" 30)
     = Ok ["imap.gmail.com"]
  /\ _candidate_hosts Demo.demo_lib Demo.demo_cfg (__init__ " Nobody" "x" 30)
     = Ok ["imap.firstmail.ltd"; "imap.notletters.com"].
Proof.
  destruct (candidate_hosts_any_address Demo.demo_lib Demo.demo_cfg
              Demo.demo_transport (__init__ "a@b@GMail.com " "x" 30))
    as (_ & Hlast & _ & Hhosts & _).
  destruct (candidate_hosts_any_address Demo.demo_lib Demo.demo_cfg
              Demo.demo_transport (__init__ " Nobody" "x" 30))
    as (_ & _ & Hnone & _ & Hhosts_none & _).
  split; [apply (Hlast "a@b" "GMail.com "); reflexivity|].
  split; [apply Hnone; reflexivity|].
  split.
  - rewrite (Hhosts "a@b" "GMail.com " eq_refl eq_refl). vm_compute; reflexivity.
  - rewrite (Hhosts_none eq_refl). vm_compute; reflexivity.
Defined.

(** * Further properties of the client *)

Lemma connect_event_ok_account (cfg : Config) (c c' : client)
    (hosts : list string) (ev : event) :
  same_account c c' ->
  connect_event_ok cfg c' hosts ev -> connect_event_ok cfg c hosts ev.
Proof.
  intros (He & Hp & Ht). destruct ev as [[]|c'']; cbn; try tauto.
  - rewrite Ht. tauto.
  - rewrite He, Hp. tauto.
  - unfold same_account. rewrite He, Hp, Ht. tauto.
Qed.

Lemma connect_event_ok_incl (cfg : Config) (c : client)
    (hosts hosts' : list string) (ev : event) :
  (forall h, In h hosts -> In h hosts') ->
  connect_event_ok cfg c hosts ev -> connect_event_ok cfg c hosts' ev.
Proof.
  intros Hincl. destruct ev as [[]|c'']; cbn; try tauto.
  intros (Hin & ?). split; [apply Hincl; exact Hin|assumption].
Qed.

(** From the slice to the identifiers dropped by a negative limit. *)
Lemma slice_from_negative_limit {A : Type} (l : list A) (limit : Z) :
  limit < 0 -> slice_from (- limit) l = skipn (Z.to_nat (- limit)) l.
Proof.
  intros Hl. unfold slice_from.
  destruct (Z.ltb_spec (- limit) 0) as [H|_]; [lia|].
  destruct (Z.le_gt_cases (- limit) (Z.of_nat (length l))) as [Hle|Hgt].
  - f_equal. lia.
  - replace (Z.to_nat (Z.min (- limit) (Z.of_nat (length l)))) with (length l) by lia.
    rewrite !skipn_all2; [reflexivity|lia|lia].
Qed.

Lemma in_skipn_in {A : Type} (n : nat) (l : list A) (x : A) :
  In x (skipn n l) -> In x l.
Proof.
  revert l. induction n as [|n IH]; intros l H; [exact H|].
  destruct l as [|y l]; [exact H|]. right. apply IH. exact H.
Qed.


Section MoreRuns.
Context (lib : PyLib) (cfg : Config) {W : Type} (T : Transport W).

Ltac unfold_client :=
  unfold attempt, disconnect, try_except, try_finally, with_server, invoke,
    set_server, set_connected_host, write_self, get_self, bind, ret, raise,
    lift, any_exception;
  cbn [self world trace server email password timeout _connected_host fst snd].

Ltac trace_now := cbn [trace]; rewrite <- ?app_assoc; cbn [app]; reflexivity.

(** What one turn of the loop of [connect] logs. *)
Lemma attempt_events (host : string) (hosts : list string) (st : state W) :
  In host hosts ->
  exists evs,
    trace (snd (attempt cfg T host st)) = (trace st ++ evs)%list /\
    Forall (connect_event_ok cfg (self st) hosts) evs.
Proof.
  intros Hin. unfold_client.
  assert (Hopen : connect_event_ok cfg (self st) hosts
            (EvCall (CallIMAP4_SSL host (DEFAULT_PORT cfg) (timeout (self st)))))
    by (cbn; auto).
  assert (Hlogin : forall h, connect_event_ok cfg (self st) hosts
            (EvCall (CallLogin h (email (self st)) (password (self st)))))
    by (intros h; cbn; auto).
  assert (Hself : forall s ch, connect_event_ok cfg (self st) hosts
            (EvSelf {| email := email (self st); password := password (self st);
                       timeout := timeout (self st); server := s;
                       _connected_host := ch |}))
    by (intros s ch; cbn; repeat split).
  assert (Hout : forall h, connect_event_ok cfg (self st) hosts (EvCall (CallLogout h)))
    by (intros h; exact I).
  destruct (IMAP4_SSL T host (DEFAULT_PORT cfg) (timeout (self st)) (world st))
    as [[h|e] w1]; cbn.
  - destruct (login T h (email (self st)) (password (self st)) w1)
      as [[res|e] w2]; cbn.
    + destruct (String.eqb res "OK"); cbn.
      * eexists. split; [trace_now|]. repeat constructor; auto.
      * destruct (logout T h w2) as [[u|e] w3]; cbn;
          (eexists; split; [trace_now|]; repeat constructor; auto).
    + destruct (is_imap_or_os_error e); cbn;
        (eexists; split; [trace_now|]; repeat constructor; auto).
  - destruct (is_imap_or_os_error e); cbn;
      (eexists; split; [trace_now|]; repeat constructor; auto).
Qed.

Lemma connect_loop_events (all_hosts hosts : list string) (le : option exn)
    (st : state W) :
  (forall h, In h hosts -> In h all_hosts) ->
  exists evs,
    trace (snd (connect_loop cfg T hosts le st)) = (trace st ++ evs)%list /\
    Forall (connect_event_ok cfg (self st) all_hosts) evs.
Proof.
  revert le st. induction hosts as [|host rest IH]; intros le st Hincl.
  - exists []. split; [symmetry; apply app_nil_r|constructor].
  - rewrite connect_loop_cons.
    destruct (attempt_events host all_hosts st (Hincl host (or_introl eq_refl)))
      as (evs & Htr & Hall).
    destruct (attempt_spec cfg T host st) as (_ & _ & _ & Hacc & _).
    destruct (attempt cfg T host st) as [[[|cause]|e] st1]; cbn [fst snd] in *.
    + exists evs. auto.
    + destruct (IH (Some cause) st1) as (evs2 & Htr2 & Hall2).
      { intros h Hh. apply Hincl. right. exact Hh. }
      exists (evs ++ evs2)%list. split.
      * rewrite Htr2, Htr. symmetry. apply app_assoc.
      * apply Forall_app. split; [exact Hall|].
        eapply List.Forall_impl; [|exact Hall2].
        intros ev. apply connect_event_ok_account. exact Hacc.
    + exists evs. auto.
Qed.

(** X1: connect talks to the server only to open a candidate host (with
    the configured port and the timeout of the instance), to log in with
    the address and the password of the instance, and to log out; it
    never selects, searches or fetches, and no attribute write changes
    the address, the password or the timeout. *)
Theorem connect_uses_only_the_account (st : state W) :
  exists hosts evs,
    _candidate_hosts lib cfg (self st) = Ok hosts /\
    trace (snd (connect lib cfg T st)) = (trace st ++ evs)%list /\
    Forall (connect_event_ok cfg (self st) hosts) evs.
Proof.
  destruct (candidate_hosts_total lib cfg (self st)) as (h0 & r0 & Hh).
  exists (h0 :: r0).
  destruct (connect_loop_events (h0 :: r0) (h0 :: r0) None st) as (evs & Htr & Hall);
    [auto|].
  exists evs. split; [exact Hh|].
  rewrite (connect_snd lib cfg T st _ Hh). auto.
Qed.

(** The hosts the loop of [connect] opens are the first candidates, in
    order; a loop that returns did so at the last host it opened, and a
    loop that ran out opened them all. *)
Lemma connect_loop_prefix (hosts : list string) (le : option exn) (st : state W) :
  exists evs tried rest,
    trace (snd (connect_loop cfg T hosts le st)) = (trace st ++ evs)%list /\
    hosts = (tried ++ rest)%list /\
    opened_hosts evs = tried /\
    match fst (connect_loop cfg T hosts le st) with
    | Ok Returned =>
        tried <> [] /\
        _connected_host (self (snd (connect_loop cfg T hosts le st)))
          = Some (List.last tried "")
    | Ok (Exhausted _) => rest = []
    | Raise _ => True
    end.
Proof.
  revert le st. induction hosts as [|host rest IH]; intros le st.
  - exists [], [], []. cbn. repeat split. symmetry. apply app_nil_r.
  - rewrite connect_loop_cons.
    destruct (attempt_spec cfg T host st) as (evs & (Htr & _) & Hop & _ & Hres).
    assert (Hop' : opened_hosts (EvCall (CallIMAP4_SSL host (DEFAULT_PORT cfg)
                                           (timeout (self st))) :: evs) = [host]).
    { unfold opened_hosts in *. cbn [flat_map app]. rewrite Hop. reflexivity. }
    destruct (attempt cfg T host st) as [[[|cause]|e] st1]; cbn [fst snd] in *.
    + eexists _, [host], rest. split; [exact Htr|]. split; [reflexivity|].
      split; [exact Hop'|].
      destruct Hres as (h & _ & Hc & _). split; [discriminate|exact Hc].
    + destruct (IH (Some cause) st1) as (evs2 & tried & rest2 & Htr2 & -> & Hop2 & Hres2).
      eexists _, (host :: tried), rest2. split.
      { rewrite Htr2, Htr. rewrite <- app_assoc. reflexivity. }
      split; [reflexivity|]. split.
      { unfold opened_hosts in *. rewrite flat_map_app, Hop', Hop2. reflexivity. }
      destruct (connect_loop cfg T (tried ++ rest2) (Some cause) st1)
        as [[[|le']|e] st2]; cbn [fst snd] in *; auto.
      destruct Hres2 as (Hne & Hc). split; [discriminate|].
      rewrite Hc. destruct tried; [contradiction|reflexivity].
    + eexists _, [host], rest. split; [exact Htr|]. split; [reflexivity|].
      split; [exact Hop'|exact I].
Qed.

(** X2: connect opens candidate hosts in their order, each at most once,
    starting with the first: the hosts opened are an initial part of the
    candidate list.  When connect returns, the host it records is the last
    one it opened, so no candidate after the successful one is tried. *)
Theorem connect_stops_at_first_success (st : state W) :
  exists hosts evs tried rest,
    _candidate_hosts lib cfg (self st) = Ok hosts /\
    trace (snd (connect lib cfg T st)) = (trace st ++ evs)%list /\
    hosts = (tried ++ rest)%list /\
    opened_hosts evs = tried /\
    (fst (connect lib cfg T st) = Ok tt ->
       tried <> [] /\
       _connected_host (self (snd (connect lib cfg T st)))
         = Some (List.last tried "")).
Proof.
  destruct (candidate_hosts_total lib cfg (self st)) as (h0 & r0 & Hh).
  destruct (connect_loop_prefix (h0 :: r0) None st)
    as (evs & tried & rest & Htr & Hsplit & Hop & Hres).
  exists (h0 :: r0), evs, tried, rest.
  rewrite (connect_snd lib cfg T st _ Hh).
  split; [exact Hh|]. split; [exact Htr|]. split; [exact Hsplit|].
  split; [exact Hop|].
  rewrite connect_unfold, Hh.
  destruct (connect_loop cfg T (h0 :: r0) None st) as [[[|le']|e] st1];
    cbn [fst snd] in *.
  - intros _. exact Hres.
  - destruct (_candidate_hosts lib cfg (self st1)); intros H; discriminate H.
  - intros H; discriminate H.
Qed.

(** X3: at a candidate that accepts the connection and answers the login
    with something other than OK, connect logs out of that connection and
    unbinds it before going on, and the cause it keeps is the rejected
    login, whether the logout returned or raised.  At a candidate whose
    login raises an IMAP4 or OS error, the connection is unbound without
    any logout. *)
Theorem rejected_login_is_logged_out (host : string) (st : state W)
    (h : handle) (w1 : W) :
  IMAP4_SSL T host (DEFAULT_PORT cfg) (timeout (self st)) (world st) = (Ok h, w1) ->
  (forall res w2,
     login T h (email (self st)) (password (self st)) w1 = (Ok res, w2) ->
     res <> "OK" ->
     fst (attempt cfg T host st)
       = Ok (Failed (Exn MailAuthError ("Не удалось войти в почту на " ++ host))) /\
     world (snd (attempt cfg T host st)) = snd (logout T h w2) /\
     server (self (snd (attempt cfg T host st))) = None /\
     exists c1 c2,
       trace (snd (attempt cfg T host st))
       = (trace st ++
          [EvCall (CallIMAP4_SSL host (DEFAULT_PORT cfg) (timeout (self st)));
           EvSelf c1;
           EvCall (CallLogin h (email (self st)) (password (self st)));
           EvCall (CallLogout h);
           EvSelf c2])%list /\
       server c1 = Some h /\ server c2 = None) /\
  (forall e w2,
     login T h (email (self st)) (password (self st)) w1 = (Raise e, w2) ->
     is_imap_or_os_error e = true ->
     fst (attempt cfg T host st) = Ok (Failed e) /\
     world (snd (attempt cfg T host st)) = w2 /\
     server (self (snd (attempt cfg T host st))) = None /\
     exists c1 c2,
       trace (snd (attempt cfg T host st))
       = (trace st ++
          [EvCall (CallIMAP4_SSL host (DEFAULT_PORT cfg) (timeout (self st)));
           EvSelf c1;
           EvCall (CallLogin h (email (self st)) (password (self st)));
           EvSelf c2])%list /\
       server c1 = Some h /\ server c2 = None).
Proof.
  intros Hopen. split.
  - intros res w2 Hlogin Hres. unfold_client. rewrite Hopen. cbn. rewrite Hlogin. cbn.
    destruct (String.eqb res "OK") eqn:E; [apply String.eqb_eq in E; contradiction|].
    cbn. destruct (logout T h w2) as [[u|e] w3]; cbn;
      (split; [reflexivity|]; split; [reflexivity|]; split; [reflexivity|];
       eexists _, _; split; [trace_now|]; split; reflexivity).
  - intros e w2 Hlogin He. unfold_client. rewrite Hopen. cbn. rewrite Hlogin. cbn.
    rewrite He. cbn.
    split; [reflexivity|]. split; [reflexivity|]. split; [reflexivity|].
    eexists _, _. split; [trace_now|]. split; reflexivity.
Qed.

End MoreRuns.

Section MoreGetMessages.
Context (lib : PyLib) {W : Type} (T : Transport W).
Context (mailbox criteria : string) (limit : Z) (mark_seen : bool).

(** X4: when the search finds no identifier (the first item of its data
    is None, empty or only whitespace), get_messages returns the empty
    batch after the select and the search, without any fetch. *)
Theorem get_messages_empty_search (st : state W) (h : handle) (w w2 : W)
    (d0 : option string) (more : list (option string)) :
  server (self st) = Some h ->
  select T h mailbox true (world st) = (Ok "OK", w) ->
  search T h criteria w = (Ok ("OK", d0 :: more), w2) ->
  bytes_split (match d0 with Some b => b | None => "" end) = [] ->
  get_messages lib T mailbox criteria limit mark_seen st
  = (Ok [],
     {| self := self st; world := w2;
        trace := (trace st ++ [EvCall (CallSelect h mailbox true);
                               EvCall (CallSearch h criteria)])%list |}).
Proof.
  intros Hsrv Hsel Hsch Hids. rewrite get_messages_unfold, Hsrv, Hsel.
  cbn [String.eqb Ascii.eqb Bool.eqb negb]. rewrite Hsch.
  cbn [String.eqb Ascii.eqb Bool.eqb negb index_first]. rewrite Hids.
  unfold after_search. rewrite <- app_assoc. reflexivity.
Qed.

(** X5: a select answered with anything but OK makes get_messages raise
    MailAuthError naming the mailbox, with the select as its only call; a
    search answered with anything but OK makes it raise the search error
    after the select and the search, before any fetch. *)
Theorem get_messages_rejections (st : state W) (h : handle) :
  server (self st) = Some h ->
  (forall typ w,
     select T h mailbox true (world st) = (Ok typ, w) -> typ <> "OK" ->
     get_messages lib T mailbox criteria limit mark_seen st
     = (Raise (Exn MailAuthError ("Не удалось выбрать ящик " ++ mailbox)),
        {| self := self st; world := w;
           trace := (trace st ++ [EvCall (CallSelect h mailbox true)])%list |})) /\
  (forall w typ data w2,
     select T h mailbox true (world st) = (Ok "OK", w) ->
     search T h criteria w = (Ok (typ, data), w2) -> typ <> "OK" ->
     get_messages lib T mailbox criteria limit mark_seen st
     = (Raise (Exn MailAuthError "Ошибка поиска писем."),
        {| self := self st; world := w2;
           trace := (trace st ++ [EvCall (CallSelect h mailbox true);
                                  EvCall (CallSearch h criteria)])%list |})).
Proof.
  intros Hsrv. split.
  - intros typ w Hsel Htyp. rewrite get_messages_unfold, Hsrv, Hsel.
    destruct (String.eqb typ "OK") eqn:E; [apply String.eqb_eq in E; contradiction|].
    reflexivity.
  - intros w typ data w2 Hsel Hsch Htyp. rewrite get_messages_unfold, Hsrv, Hsel.
    cbn [String.eqb Ascii.eqb Bool.eqb negb]. rewrite Hsch.
    destruct (String.eqb typ "OK") eqn:E; [apply String.eqb_eq in E; contradiction|].
    cbn [negb]. unfold after_search. rewrite <- app_assoc. reflexivity.
Qed.

(** The fetch loop on a server that answers each identifier with a
    response that is skipped or decodes. *)
Lemma fetch_loop_kept (items : string) (h : handle)
    (resp : string -> string * list fetch_item)
    (keep : string -> option MessageRecord)
    (msg_ids : list string) (messages : list MessageRecord) (st : state W) :
  server (self st) = Some h ->
  (forall i w, In i msg_ids -> fst (fetch T h i items w) = Ok (resp i)) ->
  (forall i, In i msg_ids -> kept_record lib (resp i) = Ok (keep i)) ->
  fst (fetch_loop lib T items msg_ids messages st)
  = Ok (messages ++ flat_map (fun i => option_list (keep i)) msg_ids)%list.
Proof.
  revert messages st. induction msg_ids as [|i rest IH]; intros messages st Hsrv Hresp Hkeep.
  - cbn. rewrite app_nil_r. reflexivity.
  - rewrite fetch_loop_cons, Hsrv.
    pose proof (Hresp i (world st) (or_introl eq_refl)) as Hr.
    pose proof (Hkeep i (or_introl eq_refl)) as Hk.
    destruct (fetch T h i items (world st)) as [[[typ data]|e] w];
      cbn [fst] in Hr; [|discriminate Hr].
    injection Hr as Hr. rewrite <- Hr in Hk. unfold kept_record in Hk.
    assert (Hnext : forall msgs,
      fst (fetch_loop lib T items rest msgs (after_fetch st h i items w))
      = Ok (msgs ++ flat_map (fun i => option_list (keep i)) rest)%list).
    { intros msgs. apply IH; [exact Hsrv| |].
      - intros j w' Hj. apply Hresp. right. exact Hj.
      - intros j Hj. apply Hkeep. right. exact Hj. }
    cbn [flat_map].
    destruct data as [|it data'];
      cbn [list_truthy first_is_none negb orb index_first] in Hk.
    { rewrite orb_true_r in Hk. injection Hk as <-. apply Hnext. }
    rewrite orb_false_r in Hk.
    destruct (negb (String.eqb typ "OK") || is_none it).
    { injection Hk as <-. apply Hnext. }
    destruct (raw_of_item it) as [raw|e]; [|discriminate Hk].
    destruct (decode_message lib raw) as [record|e]; [|discriminate Hk].
    injection Hk as <-. rewrite Hnext. cbn [option_list app].
    rewrite <- app_assoc. reflexivity.
Qed.

(** X6: on a server that answers the fetch of each identifier the same
    way whenever asked, where each response is either skipped or decodes
    to a record, get_messages returns, for the identifiers it selects
    ([msg_ids[-limit:]]), one record per response that is not skipped,
    in the reverse of the search order: the newest first. *)
Theorem get_messages_newest_first (st : state W) (h : handle) (w w2 : W)
    (d0 : option string) (more : list (option string))
    (resp : string -> string * list fetch_item)
    (keep : string -> option MessageRecord) :
  let ids := bytes_split (match d0 with Some b => b | None => "" end) in
  server (self st) = Some h ->
  select T h mailbox true (world st) = (Ok "OK", w) ->
  search T h criteria w = (Ok ("OK", d0 :: more), w2) ->
  (forall i w', fst (fetch T h i (fetch_mode mark_seen) w') = Ok (resp i)) ->
  (forall i, In i ids -> kept_record lib (resp i) = Ok (keep i)) ->
  fst (get_messages lib T mailbox criteria limit mark_seen st)
  = Ok (rev (flat_map (fun i => option_list (keep i)) (slice_from (- limit) ids))).
Proof.
  intros ids Hsrv Hsel Hsch Hresp Hkeep. rewrite get_messages_unfold, Hsrv, Hsel.
  cbn [String.eqb Ascii.eqb Bool.eqb negb]. rewrite Hsch.
  cbn [String.eqb Ascii.eqb Bool.eqb negb index_first]. fold ids.
  destruct ids as [|i ids'] eqn:Hids.
  { unfold slice_from. rewrite skipn_nil. reflexivity. }
  assert (Hloop :
    fst (fetch_loop lib T (fetch_mode mark_seen) (slice_from (- limit) (i :: ids')) []
           (after_search mailbox criteria st h w2))
    = Ok ([] ++ flat_map (fun i => option_list (keep i))
                  (slice_from (- limit) (i :: ids')))%list).
  { apply (fetch_loop_kept (fetch_mode mark_seen) h resp keep); [exact Hsrv| |].
    - intros j w' _. apply Hresp.
    - intros j Hj. apply Hkeep. unfold slice_from in Hj.
      eapply in_skipn_in. exact Hj. }
  destruct (fetch_loop lib T (fetch_mode mark_seen) (slice_from (- limit) (i :: ids')) []
              (after_search mailbox criteria st h w2)) as [[messages|e] st3];
    cbn [fst] in *; [|discriminate Hloop].
  injection Hloop as ->. reflexivity.
Qed.

(** X7: with a negative limit -k, a run of get_messages that returns has
    fetched every identifier the search found except the first k: the
    slice [msg_ids[k:]], not the last ones. *)
Theorem get_messages_negative_limit (st : state W) (h : handle) (w w2 : W)
    (d0 : option string) (more : list (option string))
    (batch : list MessageRecord) (st' : state W) :
  let ids := bytes_split (match d0 with Some b => b | None => "" end) in
  limit < 0 ->
  server (self st) = Some h ->
  select T h mailbox true (world st) = (Ok "OK", w) ->
  search T h criteria w = (Ok ("OK", d0 :: more), w2) ->
  get_messages lib T mailbox criteria limit mark_seen st = (Ok batch, st') ->
  trace st' = (trace st
               ++ [EvCall (CallSelect h mailbox true); EvCall (CallSearch h criteria)]
               ++ map (fun i => EvCall (CallFetch h i (fetch_mode mark_seen)))
                      (skipn (Z.to_nat (- limit)) ids))%list.
Proof.
  intros ids Hl Hsrv Hsel Hsch. rewrite get_messages_unfold, Hsrv, Hsel.
  cbn [String.eqb Ascii.eqb Bool.eqb negb]. rewrite Hsch.
  cbn [String.eqb Ascii.eqb Bool.eqb negb index_first]. fold ids.
  destruct ids as [|i ids'] eqn:Hids.
  { intros H. injection H as _ <-. rewrite skipn_nil. cbn [map trace after_search].
    rewrite <- !app_assoc. reflexivity. }
  rewrite (slice_from_negative_limit (i :: ids') limit Hl).
  destruct (fetch_loop_spec lib T (fetch_mode mark_seen)
              (skipn (Z.to_nat (- limit)) (i :: ids')) []
              (after_search mailbox criteria st h w2))
    as (evs & (Htr & _) & _ & _ & Hout).
  destruct (fetch_loop lib T (fetch_mode mark_seen)
              (skipn (Z.to_nat (- limit)) (i :: ids')) []
              (after_search mailbox criteria st h w2)) as [[messages|e] st3];
    cbn [fst snd] in *; [|intros H; discriminate H].
  intros H; injection H as <- <-.
  destruct (Hout messages eq_refl) as (_ & Hevs).
  rewrite Htr, (Hevs h Hsrv). cbn [trace after_search].
  rewrite <- !app_assoc. reflexivity.
Qed.

End MoreGetMessages.

(** ** Further properties of the decoder *)

Section MoreDecoder.
Context (lib : PyLib).









End MoreDecoder.

(** * Properties of the web front end *)

Section WebRuns.
Context (lib : PyLib) (cfg : Config) {W : Type} (T : Transport W).

Ltac unfold_client :=
  unfold attempt, disconnect, try_except, try_finally, with_server, invoke,
    set_server, set_connected_host, write_self, get_self, bind, ret, raise,
    lift, any_exception;
  cbn [self world trace server email password timeout _connected_host fst snd].

Lemma disconnect_fst (st : state W) : fst (disconnect T st) = Ok tt.
Proof. rewrite disconnect_unfold. destruct (server (self st)); reflexivity. Qed.

Lemma disconnect_self (st : state W) :
  self (snd (disconnect T st))
  = match server (self st) with
    | Some _ => cleared (self st)
    | None => self st
    end.
Proof. rewrite disconnect_unfold. destruct (server (self st)); reflexivity. Qed.

(** What disconnect logs: at most a logout and attribute writes. *)
Lemma disconnect_events (st : state W) :
  exists evs,
    trace (snd (disconnect T st)) = (trace st ++ evs)%list /\
    Forall no_mailbox_call evs /\
    (forall h, server (self st) = Some h ->
       exists c1 c2, evs = [EvCall (CallLogout h); EvSelf c1; EvSelf c2]).
Proof.
  rewrite disconnect_unfold. destruct (server (self st)) as [h|].
  - eexists. split; [reflexivity|]. split; [repeat constructor|].
    intros h0 H. injection H as <-. eauto.
  - exists []. split; [symmetry; apply app_nil_r|]. split; [constructor|].
    intros h0 H. discriminate H.
Qed.

(** A turn of the loop of [connect] that leaves no handle bound leaves
    the recorded host as it was. *)
Lemma attempt_unbound_keeps_host (host : string) (st : state W) :
  server (self st) = None ->
  server (self (snd (attempt cfg T host st))) = None ->
  _connected_host (self (snd (attempt cfg T host st))) = _connected_host (self st).
Proof.
  intros Hs0. unfold_client.
  destruct (IMAP4_SSL T host (DEFAULT_PORT cfg) (timeout (self st)) (world st))
    as [[h|e] w1]; cbn.
  - destruct (login T h (email (self st)) (password (self st)) w1)
      as [[res|e] w2]; cbn.
    + destruct (String.eqb res "OK"); cbn; [intros H; discriminate H|].
      destruct (logout T h w2) as [[u|e] w3]; cbn; reflexivity.
    + destruct (is_imap_or_os_error e); cbn; [reflexivity|intros H; discriminate H].
  - destruct (is_imap_or_os_error e); cbn; reflexivity.
Qed.

Lemma connect_loop_unbound_keeps_host (hosts : list string) (le : option exn)
    (st : state W) :
  server (self st) = None ->
  server (self (snd (connect_loop cfg T hosts le st))) = None ->
  _connected_host (self (snd (connect_loop cfg T hosts le st)))
  = _connected_host (self st).
Proof.
  revert le st. induction hosts as [|host rest IH]; intros le st Hs0; [reflexivity|].
  rewrite connect_loop_cons.
  pose proof (attempt_unbound_keeps_host host st Hs0) as Hk.
  pose proof (attempt_spec cfg T host st) as (evs & _ & _ & _ & Hres).
  destruct (attempt cfg T host st) as [[[|cause]|e] st1]; cbn [fst snd] in *; auto.
  destruct Hres as (Hs1 & Hc1 & _). intros H.
  rewrite (IH (Some cause) st1 Hs1 H). exact Hc1.
Qed.

Lemma connect_account (st : state W) :
  same_account (self st) (self (snd (connect lib cfg T st))).
Proof.
  destruct (candidate_hosts_total lib cfg (self st)) as (h0 & r0 & Hh).
  rewrite (connect_snd lib cfg T st _ Hh).
  destruct (connect_loop_follows cfg T (h0 :: r0) None st) as (_ & _ & Hacc & _).
  exact Hacc.
Qed.

(** What connect logs touches no mailbox. *)
Lemma connect_no_mailbox_call (st : state W) :
  exists evs,
    trace (snd (connect lib cfg T st)) = (trace st ++ evs)%list /\
    Forall no_mailbox_call evs.
Proof.
  destruct (candidate_hosts_total lib cfg (self st)) as (h0 & r0 & Hh).
  destruct (connect_loop_events cfg T (h0 :: r0) (h0 :: r0) None st) as (evs & Htr & Hall);
    [auto|].
  exists evs. rewrite (connect_snd lib cfg T st _ Hh). split; [exact Htr|].
  eapply List.Forall_impl; [|exact Hall].
  intros [[]|c]; cbn; tauto.
Qed.

(** What get_messages logs, and that it writes no attribute. *)
Lemma get_messages_events (mailbox criteria : string) (limit : Z)
    (mark_seen : bool) (st : state W) :
  exists evs,
    trace (snd (get_messages lib T mailbox criteria limit mark_seen st))
      = (trace st ++ evs)%list /\
    self (snd (get_messages lib T mailbox criteria limit mark_seen st)) = self st /\
    Forall (mailbox_event_ok mailbox criteria mark_seen) evs.
Proof.
  rewrite get_messages_unfold.
  destruct (server (self st)) as [h|] eqn:Hsrv.
  2:{ exists []. split; [symmetry; apply app_nil_r|]. split; [reflexivity|constructor]. }
  assert (Hsel : forall w (r : result (list MessageRecord)),
    exists evs,
      trace (snd (r, after_select mailbox st h w)) = (trace st ++ evs)%list /\
      self (snd (r, after_select mailbox st h w)) = self st /\
      Forall (mailbox_event_ok mailbox criteria mark_seen) evs).
  { intros w r. exists [EvCall (CallSelect h mailbox true)].
    split; [reflexivity|]. split; [reflexivity|]. repeat constructor. }
  assert (Hsearch : forall w (r : result (list MessageRecord)),
    exists evs,
      trace (snd (r, after_search mailbox criteria st h w)) = (trace st ++ evs)%list /\
      self (snd (r, after_search mailbox criteria st h w)) = self st /\
      Forall (mailbox_event_ok mailbox criteria mark_seen) evs).
  { intros w r.
    exists [EvCall (CallSelect h mailbox true); EvCall (CallSearch h criteria)].
    split; [cbn; rewrite <- app_assoc; reflexivity|]. split; [reflexivity|].
    repeat constructor. }
  destruct (select T h mailbox true (world st)) as [[typ|e] w]; [|apply Hsel].
  destruct (negb (String.eqb typ "OK")); [apply Hsel|].
  destruct (search T h criteria w) as [[[typ2 data]|e] w2]; [|apply Hsearch].
  destruct (negb (String.eqb typ2 "OK")); [apply Hsearch|].
  destruct (index_first data) as [d0|e]; [|apply Hsearch].
  destruct (bytes_split (match d0 with Some b => b | None => "" end))
    as [|i ids]; [apply Hsearch|].
  destruct (fetch_loop_spec lib T (fetch_mode mark_seen)
              (slice_from (- limit) (i :: ids)) []
              (after_search mailbox criteria st h w2))
    as (evs & (Htr & _) & Hself & Hall & _).
  exists ([EvCall (CallSelect h mailbox true); EvCall (CallSearch h criteria)]
            ++ evs)%list.
  assert (Hev : Forall (mailbox_event_ok mailbox criteria mark_seen)
                  ([EvCall (CallSelect h mailbox true);
                    EvCall (CallSearch h criteria)] ++ evs)%list).
  { repeat constructor. eapply List.Forall_impl; [|exact Hall].
    intros ev (h' & i' & ->). reflexivity. }
  destruct (fetch_loop lib T (fetch_mode mark_seen) (slice_from (- limit) (i :: ids)) []
              (after_search mailbox criteria st h w2)) as [[messages|e] st3];
    cbn [fst snd] in *;
    (split; [rewrite Htr; cbn [trace after_search]; rewrite <- !app_assoc; reflexivity|];
     split; [exact Hself|exact Hev]).
Qed.

Lemma fetch_messages_unfold (email_addr pass : string) (limit : Z)
    (w : W) (tr : list event) :
  _fetch_messages lib cfg T email_addr pass limit w tr =
  match connect lib cfg T (new_client email_addr pass w tr) with
  | (Ok _, st1) =>
      (fst (get_messages lib T "INBOX" "ALL" limit false st1),
       snd (disconnect T (snd (get_messages lib T "INBOX" "ALL" limit false st1))))
  | (Raise e, st1) => (Raise e, snd (disconnect T st1))
  end.
Proof.
  unfold _fetch_messages, try_finally, bind.
  destruct (connect lib cfg T (new_client email_addr pass w tr)) as [[u|e] st1].
  - destruct (get_messages lib T "INBOX" "ALL" limit false st1) as [r st2].
    cbn [fst snd]. pose proof (disconnect_fst st2) as Hd.
    destruct (disconnect T st2) as [[u'|e'] st3]; cbn [fst snd] in *;
      [reflexivity|discriminate Hd].
  - pose proof (disconnect_fst st1) as Hd.
    destruct (disconnect T st1) as [[u'|e'] st3]; cbn [fst snd] in *;
      [reflexivity|discriminate Hd].
Qed.

(** After connect on a new instance and whatever follows it without
    writing attributes, disconnect leaves the instance as constructed. *)
Lemma disconnect_after_connect_is_new (email_addr pass : string)
    (w : W) (tr : list event) (st2 : state W) :
  self st2 = self (snd (connect lib cfg T (new_client email_addr pass w tr))) ->
  self (snd (disconnect T st2)) = __init__ email_addr pass 30.
Proof.
  intros Hself. rewrite disconnect_self, Hself.
  pose proof (connect_account (new_client email_addr pass w tr)) as (He & Hp & Ht).
  destruct (candidate_hosts_total lib cfg (self (new_client email_addr pass w tr)))
    as (h0 & r0 & Hh).
  pose proof (connect_loop_unbound_keeps_host (h0 :: r0) None
                (new_client email_addr pass w tr) eq_refl) as Hk.
  rewrite <- (connect_snd lib cfg T _ _ Hh) in Hk.
  destruct (self (snd (connect lib cfg T (new_client email_addr pass w tr))))
    as [e p t s c]. cbn in *. subst e p t.
  destruct s as [h|]; [reflexivity|].
  rewrite (Hk eq_refl). reflexivity.
Qed.

(** X12: whatever connect and get_messages do, [_fetch_messages] leaves
    its client as it was constructed, with no handle bound and no host
    recorded; an exception of connect or get_messages comes out
    unchanged; and when connect had returned, the last transport call is
    the logout of the handle connect bound. *)
Theorem fetch_messages_always_disconnects (email_addr pass : string)
    (limit : Z) (w : W) (tr : list event) :
  let start := new_client email_addr pass w tr in
  let connected := snd (connect lib cfg T start) in
  self (snd (_fetch_messages lib cfg T email_addr pass limit w tr))
    = __init__ email_addr pass 30 /\
  (forall e, fst (connect lib cfg T start) = Raise e ->
     fst (_fetch_messages lib cfg T email_addr pass limit w tr) = Raise e) /\
  (fst (connect lib cfg T start) = Ok tt ->
     fst (_fetch_messages lib cfg T email_addr pass limit w tr)
       = fst (get_messages lib T "INBOX" "ALL" limit false connected) /\
     exists h evs c1 c2,
       server (self connected) = Some h /\
       trace (snd (_fetch_messages lib cfg T email_addr pass limit w tr))
       = (tr ++ evs ++ [EvCall (CallLogout h); EvSelf c1; EvSelf c2])%list).
Proof.
  intros start connected. rewrite fetch_messages_unfold. fold start.
  pose proof (connect_no_mailbox_call start) as (evs1 & Htr1 & _).
  pose proof (connect_loop_result cfg T) as Hres.
  destruct (candidate_hosts_total lib cfg (self start)) as (h0 & r0 & Hh).
  specialize (Hres (h0 :: r0) None start).
  pose proof (connect_unfold lib cfg T start) as Hcu. rewrite Hh in Hcu.
  pose proof (connect_snd lib cfg T start _ Hh) as Hsnd.
  unfold connected in *.
  destruct (connect lib cfg T start) as [[[]|e] st1] eqn:Hc; cbn [fst snd] in *.
  - split.
    { apply (disconnect_after_connect_is_new email_addr pass w tr).
      destruct (get_messages_events "INBOX" "ALL" limit false st1) as (? & _ & Hs & _).
      rewrite Hs. fold start. rewrite Hc. reflexivity. }
    split; [intros e H; discriminate H|].
    intros _. split; [reflexivity|].
    destruct (connect_loop cfg T (h0 :: r0) None start) as [[[|le]|e2] st1'];
      cbn [fst snd] in *.
    + destruct Hres as (h & host & Hs & _). subst st1'.
      destruct (get_messages_events "INBOX" "ALL" limit false st1)
        as (evs2 & Htr2 & Hself2 & _).
      destruct (disconnect_events (snd (get_messages lib T "INBOX" "ALL" limit false st1)))
        as (evs3 & Htr3 & _ & Hlast).
      destruct (Hlast h) as (c1 & c2 & ->); [rewrite Hself2; exact Hs|].
      exists h, (evs1 ++ evs2)%list, c1, c2. split; [exact Hs|].
      rewrite Htr3, Htr2, Htr1. cbn [trace start new_client].
      rewrite <- !app_assoc. reflexivity.
    + destruct (_candidate_hosts lib cfg (self st1')); discriminate Hcu.
    + discriminate Hcu.
  - split.
    { apply (disconnect_after_connect_is_new email_addr pass w tr).
      fold start. rewrite Hc. reflexivity. }
    split; [intros e' H; injection H as <-; reflexivity|].
    intros H; discriminate H.
Qed.

(** X13: on the way to the inbox the front end never changes the seen
    state of a message: every select [_fetch_messages] issues is of INBOX
    and read-only, every search is ALL, every fetch asks for BODY.PEEK[];
    and when connect fails, no select, search or fetch is issued at all. *)
Theorem fetch_messages_only_peeks (email_addr pass : string)
    (limit : Z) (w : W) (tr : list event) :
  exists evs,
    trace (snd (_fetch_messages lib cfg T email_addr pass limit w tr))
      = (tr ++ evs)%list /\
    Forall front_end_event_ok evs /\
    (forall e, fst (connect lib cfg T (new_client email_addr pass w tr)) = Raise e ->
       Forall no_mailbox_call evs).
Proof.
  rewrite fetch_messages_unfold.
  pose proof (connect_no_mailbox_call (new_client email_addr pass w tr))
    as (evs1 & Htr1 & Hall1).
  assert (Hweak : forall l, Forall no_mailbox_call l -> Forall front_end_event_ok l).
  { intros l Hl. eapply List.Forall_impl; [|exact Hl].
    intros [[]|c]; cbn; tauto. }
  destruct (connect lib cfg T (new_client email_addr pass w tr)) as [[u|e] st1];
    cbn [fst snd] in *.
  - destruct (get_messages_events "INBOX" "ALL" limit false st1)
      as (evs2 & Htr2 & _ & Hall2).
    destruct (disconnect_events (snd (get_messages lib T "INBOX" "ALL" limit false st1)))
      as (evs3 & Htr3 & Hall3 & _).
    exists (evs1 ++ evs2 ++ evs3)%list. split.
    { rewrite Htr3, Htr2, Htr1. cbn [trace new_client].
      rewrite <- !app_assoc. reflexivity. }
    split; [|intros e H; discriminate H].
    apply Forall_app. split; [apply Hweak; exact Hall1|].
    apply Forall_app. split; [|apply Hweak; exact Hall3].
    eapply List.Forall_impl; [|exact Hall2].
    intros [[]|c]; cbn; tauto.
  - destruct (disconnect_events st1) as (evs3 & Htr3 & Hall3 & _).
    exists (evs1 ++ evs3)%list. split.
    { rewrite Htr3, Htr1. cbn [trace new_client]. rewrite <- !app_assoc. reflexivity. }
    split.
    + apply Hweak. apply Forall_app. split; assumption.
    + intros _ _. apply Forall_app. split; assumption.
Qed.

End WebRuns.

(** ** The routes *)

(** X14: [_get_credentials] yields the pair exactly when the session
    holds both keys with non-empty values: a missing key, or an empty
    address or password, counts as not logged in.  After the logout route
    there are no credentials, so the index renders the login page. *)
Theorem get_credentials_iff (sess : web_session) (e p : string) :
  (_get_credentials sess = Some (e, p) <->
   sess !! "email" = Some e /\ sess !! "password" = Some p /\ e <> "" /\ p <> "") /\
  _get_credentials (snd (logout_route sess)) = None /\
  index (snd (logout_route sess)) = TemplateResponse "login.html" CtxLogin /\
  (index sess = RedirectResponse "/inbox" 303 <-> _get_credentials sess <> None).
Proof.
  split; [|split; [reflexivity|split; [reflexivity|]]].
  - unfold _get_credentials.
    destruct (sess !! "email") as [e'|]; destruct (sess !! "password") as [p'|].
    + destruct e' as [|a e']; destruct p' as [|b p']; cbn [str_truthy andb].
      * split; [intros H; discriminate H|].
        intros (He & _ & Hne & _). injection He as <-. contradiction.
      * split; [intros H; discriminate H|].
        intros (He & _ & Hne & _). injection He as <-. contradiction.
      * split; [intros H; discriminate H|].
        intros (_ & Hp & _ & Hne). injection Hp as <-. contradiction.
      * split.
        -- intros H. injection H as <- <-. repeat split; discriminate.
        -- intros (He & Hp & _). injection He as <-. injection Hp as <-. reflexivity.
    + split; [intros H; discriminate H|intros (_ & H & _); discriminate H].
    + split; [intros H; discriminate H|intros (H & _); discriminate H].
    + split; [intros H; discriminate H|intros (H & _); discriminate H].
  - unfold index. destruct (_get_credentials sess) as [c|].
    + split; [intros _ H; discriminate H|reflexivity].
    + split; [intros H; discriminate H|intros H; contradiction].
Qed.

Section Routes.
Context (lib : PyLib) (cfg : Config) {W : Type} (T : Transport W).

(** X15: the login route answers by what connect did on a new client.
    When connect returned, it redirects to the inbox with status 303 and
    stores the address and the password in the session, leaving the other
    keys alone.  When connect raised, it raises HTTPException 401 whose
    detail ends with the text of that exception, and the session is
    unchanged.  No other exception leaves it, and in both cases the client
    is left as constructed, with no handle bound. *)
Theorem login_route_outcomes (sess : web_session) (e p : string)
    (w : W) (tr : list event) :
  let start := new_client e p w tr in
  let out := login_route lib cfg T sess e p w tr in
  self (snd out) = __init__ e p 30 /\
  (fst (connect lib cfg T start) = Ok tt ->
     fst (fst out) = Responded (RedirectResponse "/inbox" 303) /\
     snd (fst out) !! "email" = Some e /\
     snd (fst out) !! "password" = Some p /\
     (forall k, k <> "email" -> k <> "password" -> snd (fst out) !! k = sess !! k) /\
     (e <> "" -> p <> "" -> index (snd (fst out)) = RedirectResponse "/inbox" 303)) /\
  (forall ex, fst (connect lib cfg T start) = Raise ex ->
     fst (fst out) = HTTPException 401 ("Не удалось войти: " ++ exn_str ex) /\
     snd (fst out) = sess).
Proof.
  intros start out. unfold out, login_route. fold start.
  pose proof (disconnect_after_connect_is_new lib cfg T e p w tr
                (snd (connect lib cfg T start)) eq_refl) as Hnew.
  destruct (connect lib cfg T start) as [[[]|ex] st1]; cbn [fst snd] in *.
  - pose proof (disconnect_fst T st1) as Hd.
    destruct (disconnect T st1) as [[u|e'] st2]; cbn [fst snd] in *;
      [|discriminate Hd].
    split; [exact Hnew|]. split; [|intros ex H; discriminate H].
    intros _. split; [reflexivity|].
    unfold web_session in *.
    assert (He : (<["password":=p]> (<["email":=e]> sess) : gmap string string) !! "email"
                 = Some e).
    { rewrite lookup_insert_ne by discriminate. apply lookup_insert_eq. }
    assert (Hp : (<["password":=p]> (<["email":=e]> sess) : gmap string string) !! "password"
                 = Some p) by apply lookup_insert_eq.
    split; [exact He|]. split; [exact Hp|]. split.
    + intros k Hk1 Hk2. rewrite !lookup_insert_ne by congruence. reflexivity.
    + intros Hne Hnp. unfold index, _get_credentials, web_session. rewrite He, Hp.
      destruct e; [contradiction|]. destruct p; [contradiction|]. reflexivity.
  - pose proof (disconnect_fst T st1) as Hd.
    destruct (disconnect T st1) as [[u|e'] st2]; cbn [fst snd] in *;
      [|discriminate Hd].
    split; [exact Hnew|]. split; [intros H; discriminate H|].
    intros ex' H. injection H as <-. split; reflexivity.
Qed.

(** X16: the inbox route never raises.  Without credentials it redirects
    to the index and makes no client: the world and the log are
    untouched.  With credentials it answers with the inbox page carrying
    the fetched batch and the limit, the session unchanged; when
    [_fetch_messages] raises, whatever the exception, it empties the
    session and redirects to the index, so that a following request finds
    no credentials. *)
Theorem inbox_outcomes (sess : web_session) (limit : Z) (w : W) (tr : list event) :
  let out := inbox lib cfg T sess limit w tr in
  (exists r, fst (fst out) = Responded r) /\
  (_get_credentials sess = None ->
     out = (Responded (RedirectResponse "/" 303), sess, (w, tr))) /\
  (forall e p, _get_credentials sess = Some (e, p) ->
     (forall msgs,
        fst (_fetch_messages lib cfg T e p limit w tr) = Ok msgs ->
        fst (fst out) = Responded (TemplateResponse "inbox.html" (CtxInbox e msgs limit)) /\
        snd (fst out) = sess) /\
     (forall ex,
        fst (_fetch_messages lib cfg T e p limit w tr) = Raise ex ->
        fst (fst out) = Responded (RedirectResponse "/" 303) /\
        snd (fst out) = ∅ /\
        forall limit' w' tr',
          inbox lib cfg T (snd (fst out)) limit' w' tr'
          = (Responded (RedirectResponse "/" 303), ∅, (w', tr')))).
Proof.
  intros out. unfold out, inbox.
  destruct (_get_credentials sess) as [[e p]|].
  - split; [|split; [intros H; discriminate H|]].
    + destruct (_fetch_messages lib cfg T e p limit w tr) as [[msgs|ex] st]; eauto.
    + intros e' p' H. injection H as -> ->.
      destruct (_fetch_messages lib cfg T e' p' limit w tr) as [[msgs|ex] st];
        cbn [fst snd]; split.
      * intros msgs' H. injection H as <-. split; reflexivity.
      * intros ex H. discriminate H.
      * intros msgs' H. discriminate H.
      * intros ex' _. split; [reflexivity|]. split; reflexivity.
  - cbn [fst snd]. split; [eauto|]. split; [reflexivity|].
    intros e p H. discriminate H.
Qed.

End Routes.

(** * Properties of the logging set-up *)

Lemma str_replace_char_removes (c : ascii) (by_ s : string) :
  str_has c by_ = false -> str_has c (str_replace_char c by_ s) = false.
Proof.
  intros Hby. induction s as [|d s IH]; [reflexivity|].
  cbn [str_replace_char]. destruct (Ascii.eqb d c) eqn:E.
  - rewrite str_has_app, Hby, IH. reflexivity.
  - cbn [str_has]. rewrite E, IH. reflexivity.
Qed.

Lemma str_replace_char_keeps_absent (c d : ascii) (by_ s : string) :
  str_has c by_ = false -> str_has c s = false ->
  str_has c (str_replace_char d by_ s) = false.
Proof.
  intros Hby. induction s as [|a s IH]; [reflexivity|].
  cbn [str_has]. intros H. apply orb_false_iff in H. destruct H as [Ha Hs].
  cbn [str_replace_char]. destruct (Ascii.eqb a d).
  - rewrite str_has_app, Hby, (IH Hs). reflexivity.
  - cbn [str_has]. rewrite Ha, (IH Hs). reflexivity.
Qed.

Section LoggingRuns.
Context (Formatter : string -> string -> result unit).
Context (open_log : string -> result unit).

(** Once configured, [configure] does nothing. *)
Lemma configure_when_configured (m : LoggerManager) (reg : log_registry) :
  _configured m = true -> configure Formatter open_log m reg = (Ok tt, (m, reg)).
Proof. intros H. unfold configure. rewrite H. reflexivity. Qed.

(** A format the formatter refuses stops [configure] before it asks for
    any logger. *)
Lemma configure_bad_format (m : LoggerManager) (reg : log_registry) (e : exn) :
  _configured m = false ->
  Formatter (fmt m) (datefmt m) = Raise e ->
  configure Formatter open_log m reg = (Raise e, (m, reg)).
Proof. intros Hc Hf. unfold configure. rewrite Hc, Hf. reflexivity. Qed.

Lemma initial_logger_propagate (key : string) :
  lg_propagate (initial_logger key) = true.
Proof. unfold initial_logger. destruct (String.eqb key "root"); reflexivity. Qed.

Lemma logger_key_idem (name : string) : logger_key (logger_key name) = logger_key name.
Proof. destruct name; reflexivity. Qed.

Lemma logger_key_truthy (name : string) : str_truthy name = true -> logger_key name = name.
Proof. unfold logger_key. intros ->. reflexivity. Qed.

Lemma configure_unfold (m : LoggerManager) (reg : log_registry) (u : unit) :
  _configured m = false ->
  Formatter (fmt m) (datefmt m) = Ok u ->
  configure Formatter open_log m reg =
  let console := RichHandler (level m) (fmt m) (datefmt m) in
  let installed (hs : list log_handler) (pr : bool) : log_registry :=
    <[ logger_key (root_name m) := {| lg_level := level m; lg_handlers := hs;
                                      lg_propagate := pr |} ]> reg in
  match wanted_file m with
  | None => (Ok tt, (set_configured m true, installed [console] false))
  | Some path =>
      match open_log path with
      | Ok _ =>
          (Ok tt, (set_configured m true,
                   installed [console; FileHandler path (level m) (fmt m) (datefmt m)]
                             false))
      | Raise e =>
          (Raise e, (m, installed [console]
                          match reg !! logger_key (root_name m) with
                          | Some lg => lg_propagate lg
                          | None => true
                          end))
      end
  end.
Proof.
  intros Hc Hf. unfold configure, wanted_file, getLogger, log_registry in *.
  rewrite Hc, Hf.
  destruct (reg !! logger_key (root_name m)) as [root|] eqn:E; cbn [fst snd];
    rewrite ?initial_logger_propagate;
    destruct (log_file m) as [path|];
    try (destruct (str_truthy path); [destruct (open_log path) as [[]|e]|]);
    cbn [lg_level lg_handlers lg_propagate app];
    rewrite ?insert_insert_eq; reflexivity.
Qed.

(** X17: the first [configure] starts by making the formatter: a format
    the formatter refuses makes it raise with the manager and every
    logger as they were.  With a format that is accepted it gives the
    root logger of the manager the level of the manager and exactly the
    handlers it installs, whatever handlers the logger had: the console
    handler alone when no log file is asked for, the console handler and
    then the file handler when the file opens.  It switches propagation
    off, marks the manager configured and leaves every other logger
    alone.  When the file cannot be opened the exception comes out, the
    manager stays unconfigured, and the root logger is left with the
    console handler alone.  The root logger of the manager is the logger
    its root name stands for: for the empty name and for the name root
    alike, the root logger of the logging module. *)
Theorem configure_installs (m : LoggerManager) (reg : log_registry) :
  _configured m = false ->
  (forall e, Formatter (fmt m) (datefmt m) = Raise e ->
     configure Formatter open_log m reg = (Raise e, (m, reg))) /\
  (root_name m = "" \/ root_name m = "root" -> logger_key (root_name m) = "root") /\
  (root_name m <> "" -> logger_key (root_name m) = root_name m) /\
  (Formatter (fmt m) (datefmt m) = Ok tt ->
   (forall k, k <> logger_key (root_name m) ->
      snd (snd (configure Formatter open_log m reg)) !! k = reg !! k) /\
   (log_file m = None \/ log_file m = Some "" ->
      fst (configure Formatter open_log m reg) = Ok tt /\
      fst (snd (configure Formatter open_log m reg)) = set_configured m true /\
      snd (snd (configure Formatter open_log m reg)) !! logger_key (root_name m)
        = Some {| lg_level := level m;
                  lg_handlers := [RichHandler (level m) (fmt m) (datefmt m)];
                  lg_propagate := false |}) /\
   (forall path, log_file m = Some path -> path <> "" ->
      (open_log path = Ok tt ->
         fst (configure Formatter open_log m reg) = Ok tt /\
         fst (snd (configure Formatter open_log m reg)) = set_configured m true /\
         snd (snd (configure Formatter open_log m reg)) !! logger_key (root_name m)
           = Some {| lg_level := level m;
                     lg_handlers := [RichHandler (level m) (fmt m) (datefmt m);
                                     FileHandler path (level m) (fmt m) (datefmt m)];
                     lg_propagate := false |}) /\
      (forall e, open_log path = Raise e ->
         fst (configure Formatter open_log m reg) = Raise e /\
         fst (snd (configure Formatter open_log m reg)) = m /\
         exists lg,
           snd (snd (configure Formatter open_log m reg)) !! logger_key (root_name m)
             = Some lg /\
           lg_level lg = level m /\
           lg_handlers lg = [RichHandler (level m) (fmt m) (datefmt m)]))).
Proof.
  intros Hc. split; [intros e Hf; exact (configure_bad_format m reg e Hc Hf)|].
  split; [intros [-> | ->]; reflexivity|].
  split; [intros Hne; destruct (root_name m); [contradiction|reflexivity]|].
  intros Hf. rewrite (configure_unfold m reg tt Hc Hf). cbv zeta.
  unfold log_registry in *. split; [|split].
  - intros k Hk. destruct (wanted_file m) as [path|];
      [destruct (open_log path) as [[]|e]|]; cbn [fst snd];
      rewrite lookup_insert_ne by congruence; reflexivity.
  - intros Hfile. assert (Hw : wanted_file m = None)
      by (unfold wanted_file; destruct Hfile as [-> | ->]; reflexivity).
    rewrite Hw. cbn [fst snd]. split; [reflexivity|]. split; [reflexivity|].
    apply lookup_insert_eq.
  - intros path Hfile Hne. assert (Hw : wanted_file m = Some path).
    { unfold wanted_file. rewrite Hfile. destruct path; [contradiction|reflexivity]. }
    rewrite Hw. split.
    + intros ->. cbn [fst snd]. split; [reflexivity|]. split; [reflexivity|].
      apply lookup_insert_eq.
    + intros e ->. cbn [fst snd]. split; [reflexivity|]. split; [reflexivity|].
      eexists. split; [apply lookup_insert_eq|]. split; reflexivity.
Qed.

Lemma manager_get_logger_configured (m : LoggerManager) (name : option string)
    (reg : log_registry) :
  _configured m = true ->
  manager_get_logger Formatter open_log m name reg
  = (Ok (logger_key (logger_name m name)),
     (m, snd (getLogger (logger_name m name) reg))).
Proof.
  intros H. unfold manager_get_logger. rewrite (configure_when_configured m reg H).
  reflexivity.
Qed.

Lemma getLogger_keeps (name : string) (reg : log_registry) (k : string) :
  is_Some (reg !! k) -> snd (getLogger name reg) !! k = reg !! k.
Proof.
  unfold getLogger, log_registry in *. intros Hk.
  destruct (reg !! logger_key name) eqn:E; [reflexivity|]. cbn [snd].
  rewrite lookup_insert_ne; [reflexivity|].
  intros <-. rewrite E in Hk. destruct Hk as [x Hx]. discriminate Hx.
Qed.

Lemma getLogger_exists (name : string) (reg : log_registry) :
  is_Some (snd (getLogger name reg) !! logger_key name).
Proof.
  unfold getLogger, log_registry in *.
  destruct (reg !! logger_key name) eqn:E; cbn [snd].
  - rewrite E. eauto.
  - rewrite lookup_insert_eq. eauto.
Qed.

(** Whatever [configure] returns with, a manager that comes out of it
    after a successful call is configured, under the root name it had. *)
Lemma configure_ok_configured (m m' : LoggerManager) (reg reg' : log_registry) :
  configure Formatter open_log m reg = (Ok tt, (m', reg')) ->
  _configured m' = true /\ root_name m' = root_name m.
Proof.
  unfold configure. destruct (_configured m) eqn:Hc.
  - intros H. injection H as <- _. auto.
  - destruct (Formatter (fmt m) (datefmt m)) as [u|e]; [|intros H; discriminate H].
    destruct (getLogger (root_name m) reg) as [root reg1].
    destruct (log_file m) as [path|];
      [destruct (str_truthy path); [destruct (open_log path) as [[]|e]|]|];
      intros H; try discriminate H; injection H as <- _; auto.
Qed.

(** X18: after a first successful [get_logger], the logging set-up is
    final: a later [init_logging] returns without touching any logger (it
    only records the new level and file in the manager, so a log file
    asked for then never gets a handler), and a later [get_logger] keeps
    the manager and every existing logger as they are, handlers of the
    root logger included. *)
Theorem logging_setup_is_final (module_name : string) (m m1 : LoggerManager)
    (reg reg1 : log_registry) (n : string) :
  get_logger Formatter open_log module_name m reg = (Ok n, (m1, reg1)) ->
  (forall lvl file,
     exists m2, init_logging Formatter open_log lvl file m1 reg1 = (Ok tt, (m2, reg1)) /\
                level m2 = lvl /\ log_file m2 = file) /\
  (forall other,
     exists n2 reg2,
       get_logger Formatter open_log other m1 reg1 = (Ok n2, (m1, reg2)) /\
       forall k, is_Some (reg1 !! k) -> reg2 !! k = reg1 !! k).
Proof.
  unfold get_logger at 1, manager_get_logger.
  destruct (configure Formatter open_log m reg) as [[[]|e] [m' reg']] eqn:Hcfg;
    [|intros H; discriminate H].
  intros H. injection H as _ -> _.
  destruct (configure_ok_configured _ _ _ _ Hcfg) as (Hc & _).
  split.
  - intros lvl file. eexists. split; [|split].
    + unfold init_logging. apply configure_when_configured. exact Hc.
    + reflexivity.
    + reflexivity.
  - intros other. unfold get_logger. rewrite (manager_get_logger_configured _ _ _ Hc).
    eexists _, _. split; [reflexivity|]. intros k Hk. apply getLogger_keeps. exact Hk.
Qed.

(** X19: the logger the module-level [get_logger] returns is the root
    logger of the manager (the logger its root name stands for) when the
    module name is empty or is the root name, and otherwise the child
    named by the root name, a dot, and the module name with every slash
    and backslash turned into a dot, so that the child part never
    contains a path separator.  The logger of that name exists
    afterwards. *)
Theorem get_logger_names (module_name : string) (m m1 : LoggerManager)
    (reg reg1 : log_registry) (n : string) :
  get_logger Formatter open_log module_name m reg = (Ok n, (m1, reg1)) ->
  str_has "/"%char (child_name module_name) = false /\
  str_has "\"%char (child_name module_name) = false /\
  (child_name module_name = "" \/ child_name module_name = root_name m ->
     n = logger_key (root_name m)) /\
  (root_name m <> "" ->
   child_name module_name = "" \/ child_name module_name = root_name m ->
     n = root_name m) /\
  (child_name module_name <> "" -> child_name module_name <> root_name m ->
     n = root_name m ++ "." ++ child_name module_name) /\
  is_Some (reg1 !! n).
Proof.
  intros Hget.
  unfold get_logger, manager_get_logger in Hget.
  destruct (configure Formatter open_log m reg) as [[[]|e] [m' reg']] eqn:Hcfg;
    [|discriminate Hget].
  destruct (configure_ok_configured _ _ _ _ Hcfg) as (_ & Hroot).
  injection Hget as <- _ <-.
  change (if negb (str_truthy (child_name module_name))
             || String.eqb (child_name module_name) (root_name m')
          then root_name m'
          else root_name m' ++ "." ++ child_name module_name)
    with (logger_name m' (Some (child_name module_name))).
  split.
  { unfold child_name. apply str_replace_char_keeps_absent; [reflexivity|].
    apply str_replace_char_removes. reflexivity. }
  split.
  { unfold child_name. apply str_replace_char_removes. reflexivity. }
  assert (Hrootcase : child_name module_name = "" \/ child_name module_name = root_name m ->
            logger_name m' (Some (child_name module_name)) = root_name m).
  { unfold logger_name. rewrite Hroot. intros [-> | ->]; [reflexivity|].
    rewrite String.eqb_refl, orb_true_r. reflexivity. }
  split; [|split; [|split]].
  - intros Hcase. rewrite (Hrootcase Hcase). reflexivity.
  - intros Hne Hcase. rewrite (Hrootcase Hcase).
    destruct (root_name m); [contradiction|reflexivity].
  - intros Hne Hnr. unfold logger_name. rewrite Hroot.
    destruct (child_name module_name) as [|c s] eqn:E; [contradiction|].
    cbn [str_truthy negb orb].
    destruct (String.eqb (String c s) (root_name m)) eqn:E2;
      [apply String.eqb_eq in E2; contradiction|].
    apply logger_key_truthy.
    destruct (root_name m); reflexivity.
  - apply getLogger_exists.
Qed.

End LoggingRuns.

(** * The further properties at concrete runs *)

Lemma connect_stops_at_first_success_witness :
  exists tried,
    _connected_host (self (snd (connect Demo.demo_lib Demo.demo_cfg Demo.demo_transport
                                  (Demo.fresh "a@gmail.com" 0))))
    = Some (List.last tried "").
Proof.
  destruct (connect_stops_at_first_success Demo.demo_lib Demo.demo_cfg
              Demo.demo_transport (Demo.fresh "a@gmail.com" 0))
    as (hosts & evs & tried & rest & _ & _ & _ & _ & Hok).
  exists tried. apply Hok. vm_compute; reflexivity.
Defined.

Lemma rejected_login_is_logged_out_witness :
  server (self (snd (attempt Demo.demo_cfg Demo.demo_transport "imap.gmail.com"
                       (Demo.fresh "a@gmail.com" 1)))) = None
  /\ fst (attempt Demo.demo_cfg
            (DemoWeb.scripted "OK" ("OK", []) (Raise (Exn IMAP4_error "LOGIN failed")))
            "imap.gmail.com" (Demo.fresh "a@gmail.com" 0))
     = Ok (Failed (Exn IMAP4_error "LOGIN failed")).
Proof.
  split.
  - destruct (rejected_login_is_logged_out Demo.demo_cfg Demo.demo_transport
                "imap.gmail.com" (Demo.fresh "a@gmail.com" 1) 2%nat 1%nat eq_refl)
      as (Hrej & _).
    destruct (Hrej "NO" 2%nat eq_refl) as (_ & _ & Hs & _); [discriminate|exact Hs].
  - destruct (rejected_login_is_logged_out Demo.demo_cfg
                (DemoWeb.scripted "OK" ("OK", []) (Raise (Exn IMAP4_error "LOGIN failed")))
                "imap.gmail.com" (Demo.fresh "a@gmail.com" 0) 1%nat 0%nat eq_refl)
      as (_ & Hexc).
    destruct (Hexc (Exn IMAP4_error "LOGIN failed") 1%nat eq_refl eq_refl) as (Hr & _).
    exact Hr.
Defined.

Lemma get_messages_empty_search_witness :
  fst (get_messages Demo.demo_lib (DemoWeb.scripted "OK" ("OK", [None]) (Ok "OK"))
         "INBOX" "ALL" 20 false DemoWeb.bound) = Ok [].
Proof.
  rewrite (get_messages_empty_search Demo.demo_lib
             (DemoWeb.scripted "OK" ("OK", [None]) (Ok "OK"))
             "INBOX" "ALL" 20 false DemoWeb.bound 7%nat 0%nat 0%nat None []);
    reflexivity.
Defined.

Lemma get_messages_rejections_witness :
  fst (get_messages Demo.demo_lib (DemoWeb.scripted "NO" ("OK", [None]) (Ok "OK"))
         "Drafts" "ALL" 20 false DemoWeb.bound)
  = Raise (Exn MailAuthError "Не удалось выбрать ящик Drafts")
  /\ fst (get_messages Demo.demo_lib (DemoWeb.scripted "OK" ("NO", []) (Ok "OK"))
            "INBOX" "BOGUS" 20 false DemoWeb.bound)
     = Raise (Exn MailAuthError "Ошибка поиска писем.").
Proof.
  split.
  - destruct (get_messages_rejections Demo.demo_lib
                (DemoWeb.scripted "NO" ("OK", [None]) (Ok "OK"))
                "Drafts" "ALL" 20 false DemoWeb.bound 7%nat eq_refl) as (Hsel & _).
    rewrite (Hsel "NO" 0%nat eq_refl); [reflexivity|discriminate].
  - destruct (get_messages_rejections Demo.demo_lib
                (DemoWeb.scripted "OK" ("NO", []) (Ok "OK"))
                "INBOX" "BOGUS" 20 false DemoWeb.bound 7%nat eq_refl) as (_ & Hsch).
    rewrite (Hsch 0%nat "NO" [] 0%nat eq_refl eq_refl); [reflexivity|discriminate].
Defined.

Lemma get_messages_newest_first_witness :
  fst (get_messages Demo.demo_lib Demo.demo_transport "INBOX" "ALL" 2 false
         Demo.established)
  = Ok (rev (flat_map (fun i => option_list (DemoWeb.demo_keep i)) ["2"; "3"])).
Proof.
  apply (get_messages_newest_first Demo.demo_lib Demo.demo_transport "INBOX" "ALL" 2
           false Demo.established 1%nat 1%nat 1%nat (Some "1 2 3") []
           DemoWeb.demo_resp DemoWeb.demo_keep).
  - reflexivity.
  - reflexivity.
  - reflexivity.
  - intros i w'. reflexivity.
  - intros i Hi. vm_compute in Hi.
    destruct Hi as [<-|[<-|[<-|[]]]]; vm_compute; reflexivity.
Defined.

Lemma get_messages_negative_limit_witness :
  trace (snd (get_messages Demo.demo_lib Demo.demo_transport "INBOX" "ALL" (-1) false
                Demo.established))
  = (trace Demo.established
     ++ [EvCall (CallSelect 1%nat "INBOX" true); EvCall (CallSearch 1%nat "ALL");
         EvCall (CallFetch 1%nat "2" "(BODY.PEEK[])");
         EvCall (CallFetch 1%nat "3" "(BODY.PEEK[])")])%list.
Proof.
  apply (get_messages_negative_limit Demo.demo_lib Demo.demo_transport "INBOX" "ALL"
           (-1) false Demo.established 1%nat 1%nat 1%nat (Some "1 2 3") []
           (match fst (get_messages Demo.demo_lib Demo.demo_transport "INBOX" "ALL"
                         (-1) false Demo.established) with
            | Ok b => b
            | Raise _ => []
            end)).
  - lia.
  - reflexivity.
  - reflexivity.
  - reflexivity.
  - vm_compute; reflexivity.
Defined.





Lemma fetch_messages_always_disconnects_witness :
  fst (_fetch_messages Demo.demo_lib Demo.demo_cfg Demo.demo_transport
         "a@gmail.com" "secret" 2 1%nat [])
  = Raise (Exn MailAuthError
             (connect_failed_msg "a@gmail.com" ["imap.gmail.com"]
                (Some (Exn MailAuthError (login_failed_msg "imap.gmail.com")))))
  /\ exists h evs c1 c2,
       trace (snd (_fetch_messages Demo.demo_lib Demo.demo_cfg Demo.demo_transport
                     "a@gmail.com" "secret" 2 0%nat []))
       = ([] ++ evs ++ [EvCall (CallLogout h); EvSelf c1; EvSelf c2])%list.
Proof.
  split.
  - apply (fetch_messages_always_disconnects Demo.demo_lib Demo.demo_cfg
             Demo.demo_transport "a@gmail.com" "secret" 2 1%nat []).
    vm_compute; reflexivity.
  - destruct (fetch_messages_always_disconnects Demo.demo_lib Demo.demo_cfg
                Demo.demo_transport "a@gmail.com" "secret" 2 0%nat [])
      as (_ & _ & Hok).
    destruct Hok as (_ & h & evs & c1 & c2 & _ & Htr); [vm_compute; reflexivity|].
    exists h, evs, c1, c2. exact Htr.
Defined.

Lemma fetch_messages_only_peeks_witness :
  exists evs,
    trace (snd (_fetch_messages Demo.demo_lib Demo.demo_cfg Demo.demo_transport
                  "a@gmail.com" "secret" 2 1%nat [])) = ([] ++ evs)%list /\
    Forall no_mailbox_call evs.
Proof.
  destruct (fetch_messages_only_peeks Demo.demo_lib Demo.demo_cfg Demo.demo_transport
              "a@gmail.com" "secret" 2 1%nat []) as (evs & Htr & _ & Hnone).
  exists evs. split; [exact Htr|].
  apply (Hnone (Exn MailAuthError
                  (connect_failed_msg "a@gmail.com" ["imap.gmail.com"]
                     (Some (Exn MailAuthError (login_failed_msg "imap.gmail.com")))))).
  vm_compute; reflexivity.
Defined.

Lemma get_credentials_iff_witness :
  _get_credentials DemoWeb.logged_in = Some ("a@gmail.com", "secret").
Proof.
  apply (get_credentials_iff DemoWeb.logged_in "a@gmail.com" "secret").
  repeat split; try discriminate; vm_compute; reflexivity.
Defined.

Lemma login_route_outcomes_witness :
  fst (fst (login_route Demo.demo_lib Demo.demo_cfg Demo.demo_transport ∅
              "a@gmail.com" "secret" 0%nat []))
  = Responded (RedirectResponse "/inbox" 303)
  /\ snd (fst (login_route Demo.demo_lib Demo.demo_cfg Demo.demo_transport ∅
                 "a@gmail.com" "wrong" 1%nat [])) = ∅.
Proof.
  split.
  - apply (login_route_outcomes Demo.demo_lib Demo.demo_cfg Demo.demo_transport ∅
             "a@gmail.com" "secret" 0%nat []).
    vm_compute; reflexivity.
  - destruct (login_route_outcomes Demo.demo_lib Demo.demo_cfg Demo.demo_transport ∅
                "a@gmail.com" "wrong" 1%nat []) as (_ & _ & Hfail).
    apply (Hfail (Exn MailAuthError
                    (connect_failed_msg "a@gmail.com" ["imap.gmail.com"]
                       (Some (Exn MailAuthError (login_failed_msg "imap.gmail.com")))))).
    vm_compute; reflexivity.
Defined.

Lemma inbox_outcomes_witness :
  inbox Demo.demo_lib Demo.demo_cfg Demo.demo_transport ∅ 20 0%nat []
  = (Responded (RedirectResponse "/" 303), ∅, (0%nat, []))
  /\ snd (fst (inbox Demo.demo_lib Demo.demo_cfg Demo.demo_transport
                 DemoWeb.logged_in 20 1%nat [])) = ∅.
Proof.
  split.
  - apply (inbox_outcomes Demo.demo_lib Demo.demo_cfg Demo.demo_transport ∅ 20 0%nat []).
    reflexivity.
  - destruct (inbox_outcomes Demo.demo_lib Demo.demo_cfg Demo.demo_transport
                DemoWeb.logged_in 20 1%nat []) as (_ & _ & Hcred).
    destruct (Hcred "a@gmail.com" "secret") as (_ & Hfail); [vm_compute; reflexivity|].
    apply (Hfail (Exn MailAuthError
                    (connect_failed_msg "a@gmail.com" ["imap.gmail.com"]
                       (Some (Exn MailAuthError (login_failed_msg "imap.gmail.com")))))).
    vm_compute; reflexivity.
Defined.

Lemma configure_installs_witness :
  fst (configure DemoWeb.demo_formatter DemoWeb.demo_open_log _logger_manager ∅) = Ok tt
  /\ configure DemoWeb.demo_formatter DemoWeb.demo_open_log
       {| root_name := "app"; level := logging_DEBUG; fmt := "message";
          datefmt := "%H:%M:%S"; log_file := None; _configured := false |} ∅
     = (Raise (Exn ValueError "Invalid format 'message' for '%' style"),
        ({| root_name := "app"; level := logging_DEBUG; fmt := "message";
            datefmt := "%H:%M:%S"; log_file := None; _configured := false |}, ∅)).
Proof.
  split.
  - destruct (configure_installs DemoWeb.demo_formatter DemoWeb.demo_open_log
                _logger_manager ∅ eq_refl) as (_ & _ & _ & Hok).
    destruct (Hok eq_refl) as (_ & Hnofile & _).
    apply Hnofile. left. reflexivity.
  - destruct (configure_installs DemoWeb.demo_formatter DemoWeb.demo_open_log
                {| root_name := "app"; level := logging_DEBUG; fmt := "message";
                   datefmt := "%H:%M:%S"; log_file := None; _configured := false |}
                ∅ eq_refl) as (Hbad & _).
    apply Hbad. reflexivity.
Defined.

(** The start of main.py: importing app.web makes imap_client ask for
    its logger, and only then [init_logging] asks for INFO and app.log. *)
Lemma logging_setup_is_final_witness :
  exists m1 reg1 m2,
    get_logger DemoWeb.demo_formatter DemoWeb.demo_open_log "modules.imap_client" _logger_manager ∅
      = (Ok "app.modules.imap_client", (m1, reg1)) /\
    init_logging DemoWeb.demo_formatter DemoWeb.demo_open_log logging_INFO (Some "app.log") m1 reg1
      = (Ok tt, (m2, reg1)) /\
    reg1 !! "app"
      = Some {| lg_level := logging_DEBUG;
                lg_handlers := [RichHandler logging_DEBUG (fmt _logger_manager)
                                            (datefmt _logger_manager)];
                lg_propagate := false |}.
Proof.
  destruct (get_logger DemoWeb.demo_formatter DemoWeb.demo_open_log "modules.imap_client" _logger_manager ∅)
    as [r [m1 reg1]] eqn:Hget.
  assert (Hr : r = Ok "app.modules.imap_client")
    by (apply (f_equal fst) in Hget; vm_compute in Hget; symmetry; exact Hget).
  subst r.
  destruct (logging_setup_is_final DemoWeb.demo_formatter DemoWeb.demo_open_log "modules.imap_client"
              _logger_manager m1 ∅ reg1 "app.modules.imap_client" Hget) as (Hinit & _).
  destruct (Hinit logging_INFO (Some "app.log")) as (m2 & Hm2 & _).
  exists m1, reg1, m2. split; [reflexivity|]. split; [exact Hm2|].
  apply (f_equal (fun x => snd (snd x))) in Hget. cbn [snd] in Hget.
  rewrite <- Hget. vm_compute. reflexivity.
Defined.

Lemma get_logger_names_witness :
  str_has "/"%char (child_name "mail_client/imap_client") = false.
Proof.
  destruct (get_logger DemoWeb.demo_formatter DemoWeb.demo_open_log "mail_client/imap_client" _logger_manager ∅)
    as [r [m1 reg1]] eqn:Hget.
  assert (Hr : r = Ok "app.mail_client.imap_client")
    by (apply (f_equal fst) in Hget; vm_compute in Hget; symmetry; exact Hget).
  subst r.
  apply (get_logger_names DemoWeb.demo_formatter DemoWeb.demo_open_log "mail_client/imap_client"
           _logger_manager m1 ∅ reg1 "app.mail_client.imap_client" Hget).
Defined.
